(** * qflow: a durable HTTP fan-out proxy

    A shallow embedding of [pkg/qflow] (the ingress handler, the HTTP worker,
    the reader of the queue, the start-up sequence and the host check), the
    properties of it that the specification states, and further properties
    that the code shows.

    Conventions.
    - A Go function that can panic or end the process returns in the monad
      [M]: a state transformer over [World] whose result is [Done], [Crash]
      or [Exit1].
    - [World] holds what the package mutates or emits: the five Prometheus
      collectors, the channels made, and the ordered list of input/output
      actions (channel sends, ingress responses, upstream calls, log lines,
      goroutines started).
    - What the environment decides (the ingress body stream, the result of
      [client.Do], the clock, the state of the data directory) is an input
      of the function that consumes it.
    - Of Go's standard library, [net/url] is modelled up to the point where
      the authority and the path are parsed, and [http.NewRequest] up to its
      call of [url.Parse]; what lies behind is a parameter, and every
      property holds for each behaviour of it. Of [net/http], the way
      [client.Do] follows redirects is modelled on the answers that come
      back for one call. *)

From stdpp Require Import gmap strings list.
From Stdlib Require Import ZArith QArith Ascii.
From Stdlib.Strings Require Import Byte.

Local Open Scope string_scope.
Local Open Scope list_scope.
Local Open Scope Z_scope.

(** ** Go runtime: panics, and the monad of the embedding *)

Inductive panic : Type :=
  | NilPointerDereference
  | IntegerDivideByZero
  | IndexOutOfRange
  | MakeChanSizeOutOfRange.

(** Go's [error] values are carried as their message ([None] is [nil]). *)
Abbreviation error := (option string).

(** ** net/url, as far as [isValidURL] depends on it *)

Module NetURL.

Record URL : Type := mkURL {
  Scheme : string;
  Opaque : string;
  Host : string;
  Path : string;
  ForceQuery : bool;
  RawQuery : string
}.

Definition byteval (c : ascii) : N := N_of_ascii c.

Definition isLetter (c : ascii) : bool :=
  ((97 <=? byteval c) && (byteval c <=? 122) ||
   (65 <=? byteval c) && (byteval c <=? 90))%N.

Definition isSchemeExtra (c : ascii) : bool :=
  ((48 <=? byteval c) && (byteval c <=? 57) ||
   (byteval c =? 43) || (byteval c =? 45) || (byteval c =? 46))%N.

(** [stringContainsCTLByte]: a byte below space, or DEL. *)
Fixpoint stringContainsCTLByte (s : string) : bool :=
  match s with
  | EmptyString => false
  | String c s' =>
      ((byteval c <? 32) || (byteval c =? 127))%N || stringContainsCTLByte s'
  end.

(** [getScheme]: [tl] is [rawURL[i:]]. The result is (scheme, rest, err). *)
Fixpoint getScheme_from (rawURL : string) (i : nat) (tl : string)
  : string * string * error :=
  match tl with
  | EmptyString => ("", rawURL, None)
  | String c tl' =>
      if isLetter c then getScheme_from rawURL (S i) tl'
      else if isSchemeExtra c then
        match i with
        | O => ("", rawURL, None)
        | _ => getScheme_from rawURL (S i) tl'
        end
      else if (byteval c =? 58)%N then
        match i with
        | O => ("", "", Some "missing protocol scheme")
        | _ => (String.substring 0 i rawURL, tl', None)
        end
      else ("", rawURL, None)
  end.

Definition getScheme (rawURL : string) : string * string * error :=
  getScheme_from rawURL 0 rawURL.

Definition lowerByte (c : ascii) : ascii :=
  if ((65 <=? byteval c) && (byteval c <=? 90))%N
  then ascii_of_N (byteval c + 32) else c.

(** [strings.ToLower], on the bytes a scheme can hold. *)
Fixpoint ToLower (s : string) : string :=
  match s with
  | EmptyString => EmptyString
  | String c s' => String (lowerByte c) (ToLower s')
  end.

Fixpoint CountByte (b : ascii) (s : string) : nat :=
  match s with
  | EmptyString => O
  | String c s' => ((if Ascii.eqb c b then 1 else 0) + CountByte b s')%nat
  end.

Fixpoint HasSuffixByte (b : ascii) (s : string) : bool :=
  match s with
  | EmptyString => false
  | String c EmptyString => Ascii.eqb c b
  | String _ s' => HasSuffixByte b s'
  end.

(** [strings.Cut s (string b)]: the text before and after the first [b]. *)
Fixpoint CutByte (b : ascii) (s : string) : string * string :=
  match s with
  | EmptyString => ("", "")
  | String c s' =>
      if Ascii.eqb c b then ("", s')
      else let '(before, after) := CutByte b s' in (String c before, after)
  end.

Definition HasPrefixSlash (s : string) : bool :=
  match s with
  | String c _ => Ascii.eqb c "/"
  | EmptyString => false
  end.

Section Parse.

(** The rest of [parse] (authority, path and their escapes), for a
    [rest] that starts with a slash: not modelled, any behaviour. *)
Variable parseHier : URL -> string -> option URL * error.

(** [parse rawURL true], the way [ParseRequestURI] calls it. *)
Definition parse_viaRequest (rawURL : string) : option URL * error :=
  if stringContainsCTLByte rawURL then
    (None, Some "net/url: invalid control character in URL")
  else if String.eqb rawURL "" then (None, Some "empty url")
  else if String.eqb rawURL "*" then
    (Some (mkURL "" "" "" "*" false ""), None)
  else
    match getScheme rawURL with
    | (_, _, Some err) => (None, Some err)
    | (scheme, rest, None) =>
        let scheme := ToLower scheme in
        let '(rest, force, query) :=
          if HasSuffixByte "?" rest && Nat.eqb (CountByte "?" rest) 1
          then (String.substring 0 (String.length rest - 1)%nat rest, true, "")
          else let '(r, q) := CutByte "?" rest in (r, false, q) in
        let url := mkURL scheme "" "" "" force query in
        if negb (HasPrefixSlash rest) then
          if negb (String.eqb scheme "") then
            (Some (mkURL scheme rest "" "" force query), None)
          else (None, Some "invalid URI for request")
        else parseHier url rest
    end.

(** [ParseRequestURI]: on an error of [parse] the URL returned is nil
    (the error is wrapped in a [*url.Error]; its message is kept). *)
Definition ParseRequestURI (rawURL : string) : option URL * error :=
  match parse_viaRequest rawURL with
  | (url, None) => (url, None)
  | (_, Some err) => (None, Some err)
  end.

End Parse.

End NetURL.

(** ** The data that flows *)

(** Modelled from the spec: [durable.Request], declared in [pkg/durable];
    the three fields are the ones the spec's Request record lists and that
    [HandleRequest] and [HTTPWorker] use. *)
Record Request : Type := mkRequest {
  Method : string;
  URL : string;
  Body : list byte
}.

(** A Go channel is known by its identity, the order in which it was made. *)
Inductive chan : Type := Chan (id : nat).

Record Endpoint : Type := mkEndpoint {
  Name : string;
  Hosts : list string;
  Writer : chan;
  DurableChannel : chan;
  WorkerChannel : chan;
  Timeout : Z                        (* a [time.Duration]: nanoseconds *)
}.

Record Handler : Type := mkHandler { Endpoints : list Endpoint }.

(** The anonymous struct of [Config.Endpoints]. *)
Record EndpointConfig : Type := mkEndpointConfig {
  cfgName : string;
  cfgHosts : list string
}.

(** Modelled from the spec: the fields [HTTP.Concurrency] and
    [Queue.MaxMessageSize] of [Config], which [ListenAndServe] reads and
    the declaration in structs.go lacks; they are the spec's options
    [http.concurrency] and [queue.max_message_size], as integers. The two
    other fields are those of structs.go. *)
Record Config : Type := mkConfig {
  HTTP_Timeout : Z;
  HTTP_Concurrency : Z;
  Queue_MaxMessageSize : Z;
  Config_Endpoints : list EndpointConfig
}.

(** Modelled from the spec: [durable.Config], declared in [pkg/durable];
    the fields are those [ListenAndServe] sets. *)
Record DurableConfig : Type := mkDurableConfig {
  dcName : string;
  DataPath : string;
  MaxBytesPerFile : Z;
  MinMsgSize : Z;
  MaxMsgSize : Z;
  SyncEvery : Z;
  SyncTimeout : Z
}.

(** The request [http.NewRequest] builds and [client.Do] sends. *)
Record ProxyRequest : Type := mkProxyRequest {
  pMethod : string;
  pURL : string;
  pBody : list byte
}.

(** ** The world: collectors and actions *)

Inductive level : Type := DebugLevel | InfoLevel | PrintLevel.

Inductive logarg : Type :=
  | LStr (s : string)
  | LInt (z : Z)
  | LDuration (ns : Z)
  | LErr (e : string).

Inductive goroutine : Type :=
  | GoHTTPWorker (e : Endpoint)
  | GoReadDiskChannel (e : Endpoint).

Inductive Action : Type :=
  | Send (c : chan) (r : Request)              (* [c <- r] *)
  | WriteHeader (code : Z)                     (* on the ingress response *)
  | WriteBody (s : string)
  | CloseBody                                  (* [req.Body.Close()] *)
  | ClientDo (timeout : Z) (p : ProxyRequest)  (* [client.Do(proxyReq)] *)
  | Discard (body : list byte)                 (* [io.Copy(Discard, body)] *)
  | CloseResponse
  | Log (l : level) (format : string) (args : list logarg)
  | MkdirAll (path : string)
  | MustRegister
  | OpenDurable (writer out : chan) (cfg : DurableConfig)
  | Spawn (g : goroutine)
  | Handle (pattern : string)
  | Listen (addr : string).

Record World : Type := mkWorld {
  requests : nat;
  failures : nat;
  endpointRequests : gmap string nat;
  endpointFailures : gmap string nat;
  endpointLatencyHistogram : gmap string (list Z);
  chans : list Z;             (* the channels made so far: their capacities *)
  actions : list Action
}.

Definition world0 : World := mkWorld 0 0 ∅ ∅ ∅ [] [].

(** How a call ends: it returns, it panics, or [log.Fatal] ends the
    process ([os.Exit(1)]) after printing. *)
Inductive outcome (A : Type) : Type :=
  | Done (a : A) (w : World)
  | Crash (p : panic) (w : World)
  | Exit1 (format : string) (args : list logarg) (w : World).
Arguments Done {A} a w.
Arguments Crash {A} p w.
Arguments Exit1 {A} format args w.

Definition M (A : Type) : Type := World → outcome A.

#[global] Instance M_ret : MRet M := λ A a w, Done a w.
#[global] Instance M_bind : MBind M := λ A B f m w,
  match m w with
  | Done a w' => f a w'
  | Crash p w' => Crash p w'
  | Exit1 fmt args w' => Exit1 fmt args w'
  end.

Definition gopanic {A} (p : panic) : M A := λ w, Crash p w.
Definition Fatalf {A} (format : string) (args : list logarg) : M A :=
  λ w, Exit1 format args w.
Definition modify (f : World → World) : M unit := λ w, Done tt (f w).

(** The elementary changes of the world. *)
Definition emit (a : Action) (w : World) : World :=
  mkWorld (requests w) (failures w) (endpointRequests w) (endpointFailures w)
          (endpointLatencyHistogram w) (chans w) (actions w ++ [a]).

Definition vecInc (l : string) (v : gmap string nat) : gmap string nat :=
  <[l := S (v !!! l)]> v.

Definition vecObserve (l : string) (x : Z) (h : gmap string (list Z))
  : gmap string (list Z) :=
  <[l := h !!! l ++ [x]]> h.

Definition inc_requests (w : World) : World :=
  mkWorld (S (requests w)) (failures w) (endpointRequests w)
          (endpointFailures w) (endpointLatencyHistogram w) (chans w)
          (actions w).

Definition inc_failures (w : World) : World :=
  mkWorld (requests w) (S (failures w)) (endpointRequests w)
          (endpointFailures w) (endpointLatencyHistogram w) (chans w)
          (actions w).

Definition inc_endpointRequests (l : string) (w : World) : World :=
  mkWorld (requests w) (failures w) (vecInc l (endpointRequests w))
          (endpointFailures w) (endpointLatencyHistogram w) (chans w)
          (actions w).

Definition inc_endpointFailures (l : string) (w : World) : World :=
  mkWorld (requests w) (failures w) (endpointRequests w)
          (vecInc l (endpointFailures w)) (endpointLatencyHistogram w)
          (chans w) (actions w).

Definition observe_endpointLatency (l : string) (x : Z) (w : World) : World :=
  mkWorld (requests w) (failures w) (endpointRequests w) (endpointFailures w)
          (vecObserve l x (endpointLatencyHistogram w)) (chans w) (actions w).

Definition new_chan (size : Z) (w : World) : World :=
  mkWorld (requests w) (failures w) (endpointRequests w) (endpointFailures w)
          (endpointLatencyHistogram w) (chans w ++ [size]) (actions w).

Definition act (a : Action) : M unit := modify (emit a).

Definition logf (l : level) (format : string) (args : list logarg) : M unit :=
  act (Log l format args).

(** [make(chan T, size)]. A negative size panics. The runtime panics in
    the same way when the buffer is larger than it can allocate; that limit
    depends on the platform and is left out here, so nothing below concludes
    from this definition that a channel is made: a start-up that goes
    through is a hypothesis wherever channels are made on the way. *)
Definition make_chan (size : Z) : M chan := λ w,
  if size <? 0 then Crash MakeChanSizeOutOfRange w
  else Done (Chan (length (chans w))) (new_chan size w).

(** [for _, x := range l { f x }] *)
Fixpoint forM_ {A} (f : A → M unit) (l : list A) : M unit :=
  match l with
  | [] => mret tt
  | x :: l' => f x ;; forM_ f l'
  end.

(** Prometheus: [c.Inc()], [v.WithLabelValues(l).Inc()] and
    [h.WithLabelValues(l).Observe(x)]. *)
Definition requests_Inc : M unit := modify inc_requests.
Definition failures_Inc : M unit := modify inc_failures.
Definition endpointRequests_Inc (l : string) : M unit :=
  modify (inc_endpointRequests l).
Definition endpointFailures_Inc (l : string) : M unit :=
  modify (inc_endpointFailures l).
Definition endpointLatencyHistogram_Observe (l : string) (x : Z) : M unit :=
  modify (observe_endpointLatency l x).

(** Go's integer [%] and slice indexing, with their panics. *)
Definition go_rem (a b : Z) : M Z :=
  if b =? 0 then gopanic IntegerDivideByZero else mret (Z.rem a b).

Definition index {A} (l : list A) (i : Z) : M A :=
  if i <? 0 then gopanic IndexOutOfRange
  else match l !! Z.to_nat i with
       | Some x => mret x
       | None => gopanic IndexOutOfRange
       end.

(** ** package time *)

Definition Microsecond : Z := 1000.
Definition Second : Z := 1000000000.

(** [Duration.Seconds]: [float64(d / Second) + float64(d % Second) / 1e9].
    The embedding computes the value in the rationals. The package only
    tests it against zero, and the float64 value is zero exactly when the
    rational one is: both summands have the sign of [d], the conversions
    of [d / Second] and [d % Second] are exact, and a non-zero [d % Second]
    divided by [1e9] is at least [1e-9] in magnitude, far from underflow. *)
Definition Seconds (d : Z) : Q :=
  (inject_Z (Z.quot d Second) + inject_Z (Z.rem d Second) / inject_Z Second)%Q.

(** ** package strings *)

Fixpoint Join (l : list string) (sep : string) : string :=
  match l with
  | [] => ""
  | [s] => s
  | s :: l' => String.append s (String.append sep (Join l' sep))
  end.

(** ** net/http: what the ingress request and the upstream call deliver *)

Definition StatusBadRequest : Z := 400.
Definition StatusNoContent : Z := 204.

(** An incoming request: [req.Method], [req.URL.String()], and the stream
    [req.Body], given by the bytes it yields and by how it ends ([None]:
    end of file; [Some e]: a read error). *)
Record IngressRequest : Type := mkIngressRequest {
  inMethod : string;
  inURL : string;
  inBody : list byte;
  inBodyErr : error
}.

(** [ioutil.ReadAll]: reads until end of file or error, without a limit. *)
Definition ReadAll (req : IngressRequest) : list byte * error :=
  (inBody req, inBodyErr req).

Definition newline : string := String (ascii_of_nat 10) "".

(** [http.Error(w, msg, code)] *)
Definition http_Error (msg : string) (code : Z) : M unit :=
  act (WriteHeader code) ;; act (WriteBody (String.append msg newline)).

(** [validMethod]: not empty, and token bytes only. *)
Definition isTokenByte (c : ascii) : bool :=
  let n := N_of_ascii c in
  ((48 <=? n) && (n <=? 57) || (65 <=? n) && (n <=? 90) ||
   (97 <=? n) && (n <=? 122) ||
   (n =? 33) || (n =? 35) || (n =? 36) || (n =? 37) || (n =? 38) ||
   (n =? 39) || (n =? 42) || (n =? 43) || (n =? 45) || (n =? 46) ||
   (n =? 94) || (n =? 95) || (n =? 96) || (n =? 124) || (n =? 126))%N.

Fixpoint allTokenBytes (s : string) : bool :=
  match s with
  | EmptyString => true
  | String c s' => isTokenByte c && allTokenBytes s'
  end.

Definition validMethod (method : string) : bool :=
  negb (String.eqb method "") && allTokenBytes method.

(** What [client.Do] gives back: a response and no error, or an error
    ([TransportError]), whatever made the call fail. *)
Inductive DoResult : Type :=
  | Response (status : Z) (body : list byte)
  | TransportError (e : string).

(** One receive of a worker on its [WorkerChannel], with what the
    environment answers during that iteration: the result of [client.Do]
    and the nanoseconds [time.Since(start)] reports after it. *)
Record Delivery : Type := mkDelivery {
  dRecord : Request;
  dResult : DoResult;
  dElapsedNS : Z
}.

(** What [ListenAndServe] finds on disk: whether [os.Stat(dataDir)] says the
    directory does not exist, and the error of [os.MkdirAll]. *)
Record Disk : Type := mkDisk {
  dataDirMissing : bool;
  mkdirErr : error
}.

(** ** pkg/qflow *)

(** The three options of [ListenAndServe] after its zero checks. *)
Record Options : Type := mkOptions {
  optTimeout : Z;
  optMaxMsgSize : Z;
  optConcurrency : Z
}.

Section Qflow.

(** The parts of [net/url] that are left open: the rest of [parse] behind
    [ParseRequestURI], and the error of [url.Parse], which [NewRequest]
    calls. *)
Variable parseHier : NetURL.URL → string → option NetURL.URL * error.
Variable url_Parse : string → error.

(** [http.NewRequest]: either the request or the error (the message for
    an invalid method leaves out the method it quotes). *)
Definition NewRequest (method url : string) (body : list byte)
  : ProxyRequest + string :=
  let method := if String.eqb method "" then "GET" else method in
  if negb (validMethod method) then inr "net/http: invalid method"
  else match url_Parse url with
       | Some err => inr err
       | None => inl (mkProxyRequest method url body)
       end.

(** [isValidURL]: reads [url.Scheme] first and looks at [err] afterwards. *)
Definition isValidURL (s : string) : M bool :=
  let '(url, err) := NetURL.ParseRequestURI parseHier s in
  match url with
  | None => gopanic NilPointerDereference
  | Some url =>
      if negb (String.eqb (NetURL.Scheme url) "http")
         && negb (String.eqb (NetURL.Scheme url) "https")
      then mret false
      else match err with
           | Some _ => mret false
           | None => mret true
           end
  end.

(** One iteration of the loop of [HTTPWorker]. [count] and
    [sizeEndpoints] are the function's local variables. *)
Definition HTTPWorker_iter (endpoint : Endpoint) (count sizeEndpoints : Z)
    (d : Delivery) : M unit :=
  let microInNS := Microsecond in
  let req := dRecord d in
  i ← go_rem count sizeEndpoints;
  host ← index (Hosts endpoint) i;
  let url := String.append host (URL req) in
  match NewRequest (Method req) url (Body req) with
  | inr err => logf DebugLevel "error: %s" [LErr err]
  | inl proxyReq =>
      endpointRequests_Inc (Name endpoint) ;;
      act (ClientDo (Timeout endpoint) proxyReq) ;;
      let respLatencyNS := dElapsedNS d in
      let elasped := Z.quot respLatencyNS microInNS in
      endpointLatencyHistogram_Observe (Name endpoint) elasped ;;
      match dResult d with
      | TransportError err =>
          endpointFailures_Inc (Name endpoint) ;;
          logf DebugLevel "error: %s" [LErr err] ;;
          act (Send (Writer endpoint) req)
      | Response _ body =>
          act (Discard body) ;;
          act CloseResponse
      end
  end.

(** [HTTPWorker], run on the records its channel delivers. [count] is
    declared, read in every iteration, and assigned nowhere. *)
Definition HTTPWorker (endpoint : Endpoint) (ds : list Delivery) : M unit :=
  let count := 0 in
  let sizeEndpoints := Z.of_nat (length (Hosts endpoint)) in
  forM_ (HTTPWorker_iter endpoint count sizeEndpoints) ds.

(** [HandleRequest]; the deferred [req.Body.Close()] runs on both ways out. *)
Definition HandleRequest (h : Handler) (req : IngressRequest) : M unit :=
  requests_Inc ;;
  let '(body, err) := ReadAll req in
  match err with
  | Some e =>
      failures_Inc ;;
      logf DebugLevel "error reading body: %v" [LErr e] ;;
      http_Error "can't read body" StatusBadRequest
  | None =>
      let r := mkRequest (inMethod req) (inURL req) body in
      forM_ (λ endpoint, act (Send (Writer endpoint) r)) (Endpoints h) ;;
      act (WriteHeader StatusNoContent)
  end ;;
  act CloseBody.

Definition options (config : Config) : Options :=
  let timeout := HTTP_Timeout config in
  let maxMsgSize := Queue_MaxMessageSize config in
  let concurrency := HTTP_Concurrency config in
  let timeout :=
    if Qeq_bool (Seconds timeout) 0 then 10 * Second else timeout in
  let maxMsgSize := if maxMsgSize =? 0 then 1024 * 1024 * 10 else maxMsgSize in
  let concurrency := if concurrency =? 0 then 25 else concurrency in
  mkOptions timeout maxMsgSize concurrency.

(** Modelled from the spec: [durable.Channel], declared in [pkg/durable]:
    it opens the Durable Queue fed by [writer] and returns the channel on
    which the queue yields its records. Which channel the package returns
    is not in the sources; it stands here as one more channel of the world,
    and no property below is about that channel itself. *)
Definition durable_Channel (writer : chan) (cfg : DurableConfig) : M chan :=
  c ← make_chan 0;
  act (OpenDurable writer c cfg) ;;
  mret c.

(** The body of the loop over [endpoint.Hosts]. *)
Definition checkHost (endpoint : EndpointConfig) (host : string) : M unit :=
  ok ← isValidURL host;
  if negb ok
  then Fatalf "(%s) [%s] is not a valid endpoint url"
              [LStr (cfgName endpoint); LStr host]
  else mret tt.

(** The body of the loop over [config.Endpoints]. *)
Definition startEndpoint (o : Options) (dataDir : string)
    (endpoint : EndpointConfig) : M Endpoint :=
  forM_ (checkHost endpoint) (cfgHosts endpoint) ;;
  logf InfoLevel "registered (%s) with endpoints: [%s]"
       [LStr (cfgName endpoint); LStr (Join (cfgHosts endpoint) ",")] ;;
  logf InfoLevel
       "config options: (http timeout: %s, maxMsgSize: %d, concurrency: %d)"
       [LDuration (optTimeout o); LInt (optMaxMsgSize o);
        LInt (optConcurrency o)] ;;
  writer ← make_chan 0;
  worker ← make_chan (optConcurrency o);
  c ← durable_Channel writer
        (mkDurableConfig (cfgName endpoint) dataDir (1024 * 1024 * 1024) 0
                         (optMaxMsgSize o) 10000 (Second * 10));
  let e := mkEndpoint (cfgName endpoint) (cfgHosts endpoint) writer c worker
                      (optTimeout o) in
  forM_ (λ _, act (Spawn (GoHTTPWorker e)))
        (seq 0 (Z.to_nat (optConcurrency o))) ;;
  act (Spawn (GoReadDiskChannel e)) ;;
  mret e.

Fixpoint startEndpoints (o : Options) (dataDir : string)
    (endpoints : list EndpointConfig) (ep : list Endpoint)
  : M (list Endpoint) :=
  match endpoints with
  | [] => mret ep
  | endpoint :: rest =>
      e ← startEndpoint o dataDir endpoint;
      startEndpoints o dataDir rest (ep ++ [e])
  end.

(** [ListenAndServe], up to the call of [http.ListenAndServe]: [Done h]
    says the server starts to serve with the handler [h] installed. *)
Definition ListenAndServe (config : Config) (addr dataDir : string)
    (disk : Disk) : M Handler :=
  let o := options config in
  (if dataDirMissing disk then
     logf InfoLevel "creating data directory: %s" [LStr dataDir] ;;
     act (MkdirAll dataDir) ;;
     match mkdirErr disk with
     | Some e => Fatalf "%v" [LErr e]
     | None => mret tt
     end
   else mret tt) ;;
  act MustRegister ;;
  ep ← startEndpoints o dataDir (Config_Endpoints config) [];
  let handler := mkHandler ep in
  act (Handle "/metrics") ;;
  act (Handle "/") ;;
  logf PrintLevel "listening on %s" [LStr addr] ;;
  act (Listen addr) ;;
  mret handler.

End Qflow.

(** ** What is observed of a world *)

(** The actions of [w'] that [w] does not have yet. *)
Definition since (w w' : World) : list Action :=
  drop (length (actions w)) (actions w').

(** The sends among the actions, oldest first. *)
Definition sends (l : list Action) : list (chan * Request) :=
  omap (λ a, match a with Send c r => Some (c, r) | _ => None end) l.

(** The status codes written to the ingress client. *)
Definition replies (l : list Action) : list Z :=
  omap (λ a, match a with WriteHeader c => Some c | _ => None end) l.

(** The actions that precede the first response header. *)
Fixpoint before_reply (l : list Action) : list Action :=
  match l with
  | [] => []
  | WriteHeader _ :: _ => []
  | a :: l' => a :: before_reply l'
  end.

(** The queues opened and the goroutines started, oldest first. *)
Definition pipelines (l : list Action) : list (chan * chan * DurableConfig) :=
  omap (λ a, match a with
             | OpenDurable c out cfg => Some (c, out, cfg)
             | _ => None
             end) l.

Definition spawned (l : list Action) : list goroutine :=
  omap (λ a, match a with Spawn g => Some g | _ => None end) l.

(** The URLs of the upstream calls made so far, oldest first. *)
Definition dispatched (w : World) : list string :=
  omap (λ a, match a with ClientDo _ p => Some (pURL p) | _ => None end)
       (actions w).

(** How many of the calls in [urls] went to [host], for a record [url]. *)
Definition received (host url : string) (urls : list string) : nat :=
  length (filter (λ u, u = String.append host url) urls).

(** What [ListenAndServe] sets up for an endpoint: the queue it opens on
    the endpoint's [Writer], and the goroutines it starts. *)
Definition queue_of (o : Options) (dataDir : string) (e : Endpoint)
  : chan * chan * DurableConfig :=
  (Writer e, DurableChannel e,
   mkDurableConfig (Name e) dataDir (2 ^ 30) 0 (optMaxMsgSize o) 10000
                   (10 * Second)).

Definition crew_of (o : Options) (e : Endpoint) : list goroutine :=
  replicate (Z.to_nat (optConcurrency o)) (GoHTTPWorker e)
  ++ [GoReadDiskChannel e].

(** Whether [http.NewRequest] accepts the record of [d] at the host [h],
    and whether [client.Do] fails for it. *)
Definition builds (url_Parse : string → error) (h : string) (d : Delivery)
  : bool :=
  match NewRequest url_Parse (Method (dRecord d))
                   (String.append h (URL (dRecord d))) (Body (dRecord d)) with
  | inl _ => true
  | inr _ => false
  end.

Definition failed (d : Delivery) : bool :=
  match dResult d with
  | TransportError _ => true
  | Response _ _ => false
  end.

(** The spec's round robin: the [n]-th record goes to [hosts[n mod len]]. *)
Definition spec_round_robin (hosts : list string) (records : list Request)
  : list string :=
  imap (λ n r, String.append
                 (default "" (hosts !! (n mod length hosts)%nat)) (URL r))
       records.

(** ** Instances and inputs for the examples *)

(** An instance of the open part of [parse]: it splits the authority from
    the path and rejects nothing. *)
Definition parseHier_lax (url : NetURL.URL) (rest : string)
  : option NetURL.URL * error :=
  match rest with
  | String "/" (String "/" authority) =>
      let '(host, path) := NetURL.CutByte "/" authority in
      let path := if Nat.eqb (String.length host) (String.length authority)
                  then "" else String "/" path in
      (Some (NetURL.mkURL (NetURL.Scheme url) "" host path
                          (NetURL.ForceQuery url) (NetURL.RawQuery url)), None)
  | _ =>
      (Some (NetURL.mkURL (NetURL.Scheme url) "" "" rest
                          (NetURL.ForceQuery url) (NetURL.RawQuery url)), None)
  end.

(** An instance of [url.Parse] that finds no fault. *)
Definition url_Parse_lax (_ : string) : error := None.

Definition H1 : string := "http://10.0.0.1:8080".
Definition H2 : string := "http://10.0.0.2:8080".
Definition H3 : string := "http://10.0.0.3:8080".

Definition group3 : Endpoint :=
  mkEndpoint "a" [H1; H2; H3] (Chan 0) (Chan 2) (Chan 1) (10 * Second).

Definition hello : list byte := [x68; x65; x6c; x6c; x6f].

Definition post_ingest : Request := mkRequest "POST" "/ingest" hello.

Definition delivered : Delivery :=
  mkDelivery post_ingest (Response 200 []) 1500000.
Definition refused : Delivery :=
  mkDelivery post_ingest (TransportError "connection refused") 250999.
Definition answered_503 : Delivery :=
  mkDelivery post_ingest (Response 503 hello) 1500000.
Definition bad_method : Delivery :=
  mkDelivery (mkRequest "BAD METHOD" "/ingest" hello) (Response 200 []) 0.

Definition disk_ready : Disk := mkDisk false None.
Definition disk_blank : Disk := mkDisk true None.

Definition config_empty : Config := mkConfig 0 0 0 [].

(** A host written without its scheme. *)
Definition config_unparsable : Config :=
  mkConfig 0 0 0 [mkEndpointConfig "a" ["127.0.0.1:8080"]].

Definition config_1k : Config :=
  mkConfig 0 0 1024 [mkEndpointConfig "a" ["http://127.0.0.1:18080"]].

Definition post_2k : IngressRequest :=
  mkIngressRequest "POST" "/ingest" (replicate 2048 x78) None.

(** The handler and the world [ListenAndServe] reaches from [config_1k]. *)
Definition handler_1k : Handler :=
  mkHandler [mkEndpoint "a" ["http://127.0.0.1:18080"] (Chan 0) (Chan 2)
                        (Chan 1) (10 * Second)].

Definition serving_1k : World :=
  match ListenAndServe parseHier_lax config_1k ":8080" "data" disk_ready
                       world0 with
  | Done _ w => w
  | _ => world0
  end.

(** ** pkg/qflow: the reader of the queue *)

(** A value received from a [chan interface{}]: its dynamic type is
    [durable.Request], or another one. *)
Inductive iface : Type :=
  | IsRequest (r : Request)
  | IsOther.

(** [item.(durable.Request)], [None] where the assertion panics. *)
Definition assert_Request (item : iface) : option Request :=
  match item with
  | IsRequest r => Some r
  | IsOther => None
  end.

(** Go's [int], taken 64 bits wide as on the usual platforms: the value an
    overflow leaves. *)
Definition wrap64 (z : Z) : Z := (z + 2 ^ 63) mod 2 ^ 64 - 2 ^ 63.

(** Where a run of [ReadDiskChannel] on finitely many items stands: it
    waits on the next receive, with its counter, or the type assertion has
    panicked. *)
Inductive reader : Type :=
  | Receiving (count : Z) (w : World)
  | AssertionPanic (w : World).

(** The loop of [ReadDiskChannel], from a value of [count]. *)
Fixpoint ReadDiskChannel_from (endpoint : Endpoint) (count : Z)
    (items : list iface) (w : World) : reader :=
  match items with
  | [] => Receiving count w
  | item :: items' =>
      match assert_Request item with
      | None => AssertionPanic w
      | Some req =>
          let count := wrap64 (count + 1) in
          let w := if Z.rem count 1000 =? 0
                   then emit (Log DebugLevel "processed 1000 operations" []) w
                   else w in
          ReadDiskChannel_from endpoint count items'
            (emit (Send (WorkerChannel endpoint) req) w)
      end
  end.

Definition ReadDiskChannel (endpoint : Endpoint) (items : list iface)
    (w : World) : reader :=
  ReadDiskChannel_from endpoint 0 items w.

(** ** More of what is observed of a world *)

(** The upstream calls among the actions: the timeout and the request. *)
Definition calls (l : list Action) : list (Z * ProxyRequest) :=
  omap (λ a, match a with ClientDo t p => Some (t, p) | _ => None end) l.

(** The response bodies read to their end, and the responses closed. *)
Definition discards (l : list Action) : list (list byte) :=
  omap (λ a, match a with Discard b => Some b | _ => None end) l.

Definition closes (l : list Action) : list unit :=
  omap (λ a, match a with CloseResponse => Some tt | _ => None end) l.

(** The log lines, and what is written as the body of ingress responses. *)
Definition logged (l : list Action) : list (level * string * list logarg) :=
  omap (λ a, match a with Log lv f args => Some (lv, f, args) | _ => None end)
       l.

Definition bodies (l : list Action) : list string :=
  omap (λ a, match a with WriteBody s => Some s | _ => None end) l.

(** The directories made. *)
Definition mkdirs (l : list Action) : list string :=
  omap (λ a, match a with MkdirAll p => Some p | _ => None end) l.

(** The capacity of a channel of the world. *)
Definition capacity (w : World) (c : chan) : option Z :=
  match c with Chan i => chans w !! i end.

(** The request a worker builds for a record at the host [h]. *)
Definition proxy_of (h : string) (r : Request) : ProxyRequest :=
  mkProxyRequest (if String.eqb (Method r) "" then "GET" else Method r)
                 (String.append h (URL r)) (Body r).

(** Whether [isValidURL] says yes, or says no, to a host: the host parses
    without error, and its scheme is, or is not, one of the two. *)
Definition accepts
    (parseHier : NetURL.URL → string → option NetURL.URL * error)
    (host : string) : bool :=
  match NetURL.ParseRequestURI parseHier host with
  | (Some url, None) =>
      String.eqb (NetURL.Scheme url) "http"
      || String.eqb (NetURL.Scheme url) "https"
  | _ => false
  end.

Definition refuses
    (parseHier : NetURL.URL → string → option NetURL.URL * error)
    (host : string) : bool :=
  match NetURL.ParseRequestURI parseHier host with
  | (Some url, None) =>
      negb (String.eqb (NetURL.Scheme url) "http"
            || String.eqb (NetURL.Scheme url) "https")
  | _ => false
  end.

(** The actions of [ListenAndServe] for one endpoint, once its hosts are
    checked, in their order. *)
Definition started (o : Options) (dataDir : string) (e : Endpoint)
  : list Action :=
  [Log InfoLevel "registered (%s) with endpoints: [%s]"
       [LStr (Name e); LStr (Join (Hosts e) ",")];
   Log InfoLevel
       "config options: (http timeout: %s, maxMsgSize: %d, concurrency: %d)"
       [LDuration (optTimeout o); LInt (optMaxMsgSize o);
        LInt (optConcurrency o)];
   OpenDurable (Writer e) (DurableChannel e)
     (mkDurableConfig (Name e) dataDir (2 ^ 30) 0 (optMaxMsgSize o) 10000
                      (10 * Second))]
  ++ replicate (Z.to_nat (optConcurrency o)) (Spawn (GoHTTPWorker e))
  ++ [Spawn (GoReadDiskChannel e)].

(** The endpoint [ListenAndServe] makes of the [i]-th entry of the
    configuration, when [n] channels exist before the first one. *)
Definition endpoint_at (o : Options) (n i : nat) (ec : EndpointConfig)
  : Endpoint :=
  mkEndpoint (cfgName ec) (cfgHosts ec) (Chan (n + 3 * i))
             (Chan (n + 3 * i + 2)) (Chan (n + 3 * i + 1)) (optTimeout o).

Definition chan_id (c : chan) : nat := match c with Chan i => i end.


(** Whether a string is made of ASCII letters only. *)
Fixpoint allLetters (s : string) : bool :=
  match s with
  | EmptyString => true
  | String c s' => NetURL.isLetter c && allLetters s'
  end.

(** A data directory that is missing and cannot be made. *)
Definition disk_denied : Disk := mkDisk true (Some "permission denied").


(** The world after [HandleRequest] has answered a request with the body
    [hello], for a handler with the one endpoint of [handler_1k]. *)
Definition answered_hello : World :=
  emit CloseBody (emit (WriteHeader StatusNoContent)
    (emit (Send (Chan 0) post_ingest) (inc_requests world0))).

(** ** net/http: what [client.Do] makes of the answers of the hosts *)

(** What comes back on the wire for one call of [client.Do]. The host
    answers the request with a response that is the last one ([Answers]),
    or nothing comes back and the transport reports an error ([NoAnswer]:
    connection refused, time-out of the client, ...), or the host answers
    with a redirect, a status 301, 302, 303, 307 or 308 with a [Location]
    header, and the exchange goes on with the request to that location. *)
Inductive exchange : Type :=
  | Answers (status : Z) (body : list byte)
  | NoAnswer (e : string)
  | Redirects (status : Z) (location : string) (next : exchange).

(** The [Do] method of an [http.Client] without [CheckRedirect], as
    [HTTPWorker] makes its client: [via] requests have been sent when the
    answer at the head of the exchange arrives. A redirect is followed
    unless ten requests have been sent; a response that is not one is the
    result; when a request gets no answer, at the first request or after a
    redirect, [Do] returns the error. *)
Fixpoint client_Do (via : nat) (x : exchange) : DoResult :=
  match x with
  | Answers status body => Response status body
  | NoAnswer e => TransportError e
  | Redirects _ _ next =>
      if (10 <=? via)%nat then TransportError "stopped after 10 redirects"
      else client_Do (S via) next
  end.

(** A host that answers the record with a 302 to a location where nobody
    listens. *)
Definition moved_then_refused : exchange :=
  Redirects 302 "http://10.0.0.9:8080/ingest" (NoAnswer "connection refused").

Definition redirected : Delivery :=
  mkDelivery post_ingest (client_Do 1 moved_then_refused) 1500000.

(** * Properties *)

#[local] Arguments NewRequest : simpl never.
#[local] Arguments String.append : simpl never.

(** ** The zero test of the timeout *)

Lemma Seconds_exact (d : Z) : (Seconds d == d # 1000000000)%Q.
Proof.
  unfold Seconds, Qeq, Qdiv, Qplus, Qmult, Qinv, inject_Z, Second.
  cbn [Qnum Qden].
  pose proof (Z.quot_rem' d 1000000000) as E.
  change (Z.pos (1 * 1000000000)) with 1000000000.
  change (Z.pos (1 * (1 * 1000000000))) with 1000000000.
  lia.
Qed.

Lemma Seconds_zero (d : Z) : Qeq_bool (Seconds d) 0 = (d =? 0).
Proof.
  apply eq_true_iff_eq.
  rewrite Qeq_bool_iff, Z.eqb_eq, Seconds_exact.
  unfold Qeq; cbn [Qnum Qden]. lia.
Qed.

Lemma options_eq (config : Config) :
  options config =
  mkOptions
    (if HTTP_Timeout config =? 0 then 10 * Second else HTTP_Timeout config)
    (if Queue_MaxMessageSize config =? 0 then 10 * 2 ^ 20
     else Queue_MaxMessageSize config)
    (if HTTP_Concurrency config =? 0 then 25 else HTTP_Concurrency config).
Proof. unfold options. by rewrite Seconds_zero. Qed.

(** ** The monad *)

Ltac unfold_M := unfold mbind, M_bind, mret, M_ret, act, logf, modify.
Ltac run_M := repeat (progress (unfold_M; unfold index, gopanic; cbn)).

Lemma bind_Done_inv {A B} (m : M A) (f : A → M B) w b w2 :
  (m ≫= f) w = Done b w2 → ∃ a w1, m w = Done a w1 ∧ f a w1 = Done b w2.
Proof.
  unfold mbind, M_bind. destruct (m w) as [a w1| |]; [|done..].
  intros E. by exists a, w1.
Qed.

Lemma forM__act {A} (g : A → Action) (l : list A) (w : World) :
  forM_ (λ x, act (g x)) l w = Done tt (foldl (λ w x, emit (g x) w) w l).
Proof.
  revert w; induction l as [|x l IH]; intros w; [reflexivity|].
  cbn [forM_ foldl]. unfold_M. apply IH.
Qed.

Lemma forM__emit {A} (g : A → Action) (l : list A) (w : World) :
  forM_ (λ x w, Done tt (emit (g x) w)) l w
  = Done tt (foldl (λ w x, emit (g x) w) w l).
Proof. apply (forM__act g). Qed.

Section Foldl_emit.
Context {A : Type} (g : A → Action).

Lemma actions_foldl_emit l w :
  actions (foldl (λ w x, emit (g x) w) w l) = actions w ++ map g l.
Proof.
  revert w; induction l as [|x l IH]; intros w; cbn.
  - by rewrite app_nil_r.
  - rewrite IH. cbn. by rewrite <- app_assoc.
Qed.

Lemma foldl_emit_keeps {B} (field : World → B) :
  (∀ a w, field (emit a w) = field w) →
  ∀ l w, field (foldl (λ w x, emit (g x) w) w l) = field w.
Proof.
  intros Hf l. induction l as [|x l IH]; intros w; cbn; [done|].
  by rewrite IH.
Qed.

Lemma requests_foldl_emit l w :
  requests (foldl (λ w x, emit (g x) w) w l) = requests w.
Proof. by apply foldl_emit_keeps. Qed.

Lemma failures_foldl_emit l w :
  failures (foldl (λ w x, emit (g x) w) w l) = failures w.
Proof. by apply foldl_emit_keeps. Qed.

Lemma chans_foldl_emit l w :
  chans (foldl (λ w x, emit (g x) w) w l) = chans w.
Proof. by apply foldl_emit_keeps. Qed.

End Foldl_emit.

(** ** Observations *)

Lemma since_app (w w' : World) (l : list Action) :
  actions w' = actions w ++ l → since w w' = l.
Proof. intros E. unfold since. rewrite E. by rewrite drop_app_length. Qed.

Lemma map_const_replicate {A B} (x : B) (l : list A) :
  map (λ _, x) l = replicate (length l) x.
Proof. induction l; [done|]. cbn. by f_equal. Qed.

Lemma pipelines_app l1 l2 : pipelines (l1 ++ l2) = pipelines l1 ++ pipelines l2.
Proof. apply omap_app. Qed.

Lemma spawned_app l1 l2 : spawned (l1 ++ l2) = spawned l1 ++ spawned l2.
Proof. apply omap_app. Qed.

Lemma pipelines_Spawn (g : goroutine) (l : list nat) :
  pipelines (map (λ _, Spawn g) l) = [].
Proof. induction l; [done|]. cbn [map]. unfold pipelines in *. by simpl. Qed.

Lemma spawned_Spawn (g : goroutine) (l : list nat) :
  spawned (map (λ _, Spawn g) l) = replicate (length l) g.
Proof.
  induction l; [done|]. cbn [map]. unfold spawned in *. simpl. by f_equal.
Qed.

Lemma dispatched_emit a w :
  dispatched (emit a w) =
  dispatched w ++ match a with ClientDo _ p => [pURL p] | _ => [] end.
Proof.
  unfold dispatched. cbn [actions emit]. rewrite omap_app. by destruct a.
Qed.

Lemma dispatched_observe l x w :
  dispatched (observe_endpointLatency l x w) = dispatched w.
Proof. done. Qed.

Lemma dispatched_inc_endpointRequests l w :
  dispatched (inc_endpointRequests l w) = dispatched w.
Proof. done. Qed.

Lemma dispatched_inc_endpointFailures l w :
  dispatched (inc_endpointFailures l w) = dispatched w.
Proof. done. Qed.

Create Rewrite HintDb world.
#[local] Hint Rewrite dispatched_emit dispatched_observe
  dispatched_inc_endpointRequests dispatched_inc_endpointFailures : world.

Lemma vecInc_eq l (v : gmap string nat) : vecInc l v !!! l = S (v !!! l).
Proof. unfold vecInc. by rewrite lookup_total_insert_eq. Qed.

Lemma vecInc_ne l l' (v : gmap string nat) :
  l' ≠ l → vecInc l v !!! l' = v !!! l'.
Proof. intros. unfold vecInc. by rewrite lookup_total_insert_ne. Qed.

Lemma vecObserve_eq l x (v : gmap string (list Z)) :
  vecObserve l x v !!! l = v !!! l ++ [x].
Proof. unfold vecObserve. by rewrite lookup_total_insert_eq. Qed.

Lemma vecObserve_ne l l' x (v : gmap string (list Z)) :
  l' ≠ l → vecObserve l x v !!! l' = v !!! l'.
Proof. intros. unfold vecObserve. by rewrite lookup_total_insert_ne. Qed.

(** ** The ingress handler *)

Section Ingress.
Variable h : Handler.
Variables (m u : string) (b : list byte).

Let fan_out : list Action :=
  map (λ e, Send (Writer e) (mkRequest m u b)) (Endpoints h).

Lemma before_reply_fan_out tl :
  before_reply (fan_out ++ WriteHeader StatusNoContent :: tl) = fan_out.
Proof.
  subst fan_out. induction (Endpoints h) as [|e l IH]; cbn; [done|].
  by rewrite IH.
Qed.

Lemma sends_fan_out tl :
  sends (fan_out ++ WriteHeader StatusNoContent :: CloseBody :: tl) =
  map (λ e, (Writer e, mkRequest m u b)) (Endpoints h) ++ sends tl.
Proof.
  subst fan_out. induction (Endpoints h) as [|e l IH]; [done|].
  cbn [map app]. unfold sends in *. simpl. by f_equal.
Qed.

Lemma replies_fan_out tl :
  replies (fan_out ++ WriteHeader StatusNoContent :: tl) =
  StatusNoContent :: replies tl.
Proof.
  subst fan_out. induction (Endpoints h) as [|e l IH]; [done|].
  cbn [map app]. unfold replies in *. simpl. done.
Qed.

Lemma HandleRequest_read (w : World) :
  ∃ w', HandleRequest h (mkIngressRequest m u b None) w = Done tt w'
    ∧ actions w' =
        actions w ++ fan_out ++ [WriteHeader StatusNoContent; CloseBody]
    ∧ requests w' = S (requests w) ∧ failures w' = failures w.
Proof.
  unfold HandleRequest, ReadAll. cbn [inBody inBodyErr inMethod inURL].
  unfold mbind, M_bind, requests_Inc, modify. rewrite forM__act.
  unfold_M. cbn.
  eexists; split; [reflexivity|]. cbn.
  rewrite actions_foldl_emit, requests_foldl_emit, failures_foldl_emit.
  cbn. rewrite <- !app_assoc. done.
Qed.

Lemma HandleRequest_read_error (e : string) (w : World) :
  ∃ w', HandleRequest h (mkIngressRequest m u b (Some e)) w = Done tt w'
    ∧ actions w' =
        actions w ++ [Log DebugLevel "error reading body: %v" [LErr e];
                      WriteHeader StatusBadRequest;
                      WriteBody (String.append "can't read body" newline);
                      CloseBody]
    ∧ requests w' = S (requests w) ∧ failures w' = S (failures w).
Proof.
  unfold HandleRequest, ReadAll, http_Error.
  cbn [inBody inBodyErr inMethod inURL]. unfold_M. cbn.
  eexists; split; [reflexivity|]. cbn. rewrite <- !app_assoc. done.
Qed.

End Ingress.

(** ** The worker *)

Lemma NewRequest_inl url_Parse method url body p :
  NewRequest url_Parse method url body = inl p →
  pURL p = url ∧ pBody p = body
  ∧ pMethod p = (if String.eqb method "" then "GET" else method).
Proof.
  unfold NewRequest. destruct (negb _); [done|].
  destruct (url_Parse url); [done|]. by intros [= <-].
Qed.

Section Worker.
Variable url_Parse : string → error.
Variable endpoint : Endpoint.

(** Without a host the first record stops the process. *)
Lemma HTTPWorker_without_hosts d ds w :
  Hosts endpoint = [] →
  HTTPWorker url_Parse endpoint (d :: ds) w = Crash IntegerDivideByZero w.
Proof. unfold HTTPWorker, HTTPWorker_iter. by intros ->. Qed.

Variables (h : string) (hs : list string).
Hypothesis first_host : Hosts endpoint = h :: hs.

(** What [http.NewRequest] answers for a record, at the first host. *)
Let build (d : Delivery) : ProxyRequest + string :=
  NewRequest url_Parse (Method (dRecord d))
             (String.append h (URL (dRecord d))) (Body (dRecord d)).

Let iter : Delivery → M unit :=
  HTTPWorker_iter url_Parse endpoint 0 (Z.of_nat (length (Hosts endpoint))).

Lemma HTTPWorker_cons d ds w :
  HTTPWorker url_Parse endpoint (d :: ds) w =
  match iter d w with
  | Done _ w' => HTTPWorker url_Parse endpoint ds w'
  | Crash p w' => Crash p w'
  | Exit1 f a w' => Exit1 f a w'
  end.
Proof. reflexivity. Qed.

Ltac first_host_picked :=
  subst build iter; cbn beta; unfold HTTPWorker_iter, go_rem;
  rewrite first_host; cbn [length];
  destruct (Z.eqb_spec (Z.of_nat (S (length hs))) 0) as [?|_]; [lia|];
  rewrite Z.rem_0_l by lia; run_M; change (Z.to_nat 0) with O; run_M.

Lemma iter_dropped d err w :
  build d = inr err →
  iter d w = Done tt (emit (Log DebugLevel "error: %s" [LErr err]) w).
Proof. intros E. revert E. first_host_picked. by intros ->. Qed.

Lemma iter_failed d p e w :
  build d = inl p → dResult d = TransportError e →
  iter d w =
  Done tt (emit (Send (Writer endpoint) (dRecord d))
          (emit (Log DebugLevel "error: %s" [LErr e])
          (inc_endpointFailures (Name endpoint)
          (observe_endpointLatency (Name endpoint)
                                   (Z.quot (dElapsedNS d) 1000)
          (emit (ClientDo (Timeout endpoint) p)
          (inc_endpointRequests (Name endpoint) w)))))).
Proof. intros E R. revert E R. first_host_picked. by intros -> ->. Qed.

Lemma iter_delivered d p status body w :
  build d = inl p → dResult d = Response status body →
  iter d w =
  Done tt (emit CloseResponse
          (emit (Discard body)
          (observe_endpointLatency (Name endpoint)
                                   (Z.quot (dElapsedNS d) 1000)
          (emit (ClientDo (Timeout endpoint) p)
          (inc_endpointRequests (Name endpoint) w))))).
Proof. intros E R. revert E R. first_host_picked. by intros -> ->. Qed.

End Worker.

(** The loop over any finite run of deliveries: it never stops by itself,
    every call goes to the first host, and the collectors of the endpoint
    move with the calls. *)
Lemma HTTPWorker_run url_Parse endpoint h hs :
  Hosts endpoint = h :: hs → ∀ ds w,
  let n := Name endpoint in
  let sent := filter (λ d, builds url_Parse h d = true) ds in
  ∃ w', HTTPWorker url_Parse endpoint ds w = Done tt w'
    ∧ dispatched w' =
        dispatched w ++ map (λ d, String.append h (URL (dRecord d))) sent
    ∧ endpointRequests w' !!! n = (endpointRequests w !!! n + length sent)%nat
    ∧ endpointFailures w' !!! n =
        (endpointFailures w !!! n
         + length (filter (λ d, failed d = true) sent))%nat
    ∧ endpointLatencyHistogram w' !!! n =
        endpointLatencyHistogram w !!! n
        ++ map (λ d, Z.quot (dElapsedNS d) 1000) sent
    ∧ (∀ l, l ≠ n →
         endpointRequests w' !!! l = endpointRequests w !!! l
         ∧ endpointFailures w' !!! l = endpointFailures w !!! l
         ∧ endpointLatencyHistogram w' !!! l
           = endpointLatencyHistogram w !!! l)
    ∧ requests w' = requests w ∧ failures w' = failures w.
Proof.
  intros Hh ds. induction ds as [|d ds IH]; intros w n sent.
  { exists w. subst sent. cbn. rewrite !app_nil_r, !Nat.add_0_r. done. }
  subst n.
  rewrite (HTTPWorker_cons url_Parse endpoint).
  destruct (NewRequest url_Parse (Method (dRecord d))
              (String.append h (URL (dRecord d))) (Body (dRecord d)))
    as [p|err] eqn:E.
  - assert (builds url_Parse h d = true) as B by (unfold builds; by rewrite E).
    subst sent. rewrite filter_cons_True by exact B.
    destruct (NewRequest_inl _ _ _ _ _ E) as (U & _).
    destruct (dResult d) as [status body|e] eqn:R.
    + rewrite (iter_delivered _ _ _ _ Hh _ _ _ _ _ E R).
      match goal with |- context [HTTPWorker _ _ _ ?w1] =>
        destruct (IH w1) as (w' & -> & D & RQ & FL & HI & OT & R1 & F1) end.
      exists w'. split; [done|]. rewrite D, RQ, FL, HI, R1, F1.
      assert (failed d = false) as F by (unfold failed; by rewrite R).
      rewrite filter_cons_False by (by rewrite F).
      autorewrite with world.
      cbn [actions requests failures endpointRequests endpointFailures
           endpointLatencyHistogram emit inc_endpointRequests
           observe_endpointLatency map length app].
      rewrite vecInc_eq, vecObserve_eq, U, !app_nil_r, <- !app_assoc.
      split; [done|]. split; [lia|]. split; [lia|]. split; [done|].
      split; [|done]. intros lbl Hl. destruct (OT lbl Hl) as (-> & -> & ->).
      cbn [endpointRequests endpointFailures endpointLatencyHistogram emit
           inc_endpointRequests observe_endpointLatency].
      by rewrite vecInc_ne, vecObserve_ne.
    + rewrite (iter_failed _ _ _ _ Hh _ _ _ _ E R).
      match goal with |- context [HTTPWorker _ _ _ ?w1] =>
        destruct (IH w1) as (w' & -> & D & RQ & FL & HI & OT & R1 & F1) end.
      exists w'. split; [done|]. rewrite D, RQ, FL, HI, R1, F1.
      assert (failed d = true) as F by (unfold failed; by rewrite R).
      rewrite filter_cons_True by exact F.
      autorewrite with world.
      cbn [actions requests failures endpointRequests endpointFailures
           endpointLatencyHistogram emit inc_endpointRequests
           inc_endpointFailures observe_endpointLatency map length app].
      rewrite !vecInc_eq, vecObserve_eq, U, !app_nil_r, <- !app_assoc.
      split; [done|]. split; [lia|]. split; [lia|]. split; [done|].
      split; [|done]. intros lbl Hl. destruct (OT lbl Hl) as (-> & -> & ->).
      cbn [endpointRequests endpointFailures endpointLatencyHistogram emit
           inc_endpointRequests inc_endpointFailures observe_endpointLatency].
      by rewrite !vecInc_ne, vecObserve_ne.
  - assert (builds url_Parse h d ≠ true) as B
      by (unfold builds; by rewrite E).
    subst sent. rewrite filter_cons_False by exact B.
    rewrite (iter_dropped _ _ _ _ Hh _ _ _ E).
    match goal with |- context [HTTPWorker _ _ _ ?w1] =>
      destruct (IH w1) as (w' & -> & D & RQ & FL & HI & OT & R1 & F1) end.
    exists w'. split; [done|]. rewrite D, RQ, FL, HI, R1, F1.
    autorewrite with world. rewrite app_nil_r.
    split; [done|]. split; [done|]. split; [done|]. split; [done|].
    split; [|done]. intros lbl Hl. by destruct (OT lbl Hl) as (-> & -> & ->).
Qed.

(** ** The host check *)

Section Validation.
Variable parseHier : NetURL.URL → string → option NetURL.URL * error.

Lemma ParseRequestURI_error_nil s url e :
  NetURL.ParseRequestURI parseHier s = (url, Some e) → url = None.
Proof.
  unfold NetURL.ParseRequestURI.
  destruct (NetURL.parse_viaRequest parseHier s) as [u [e'|]]; congruence.
Qed.

Lemma isValidURL_parsed s url w :
  NetURL.ParseRequestURI parseHier s = (Some url, None) →
  isValidURL parseHier s w =
  Done (String.eqb (NetURL.Scheme url) "http"
        || String.eqb (NetURL.Scheme url) "https") w.
Proof.
  intros E. unfold isValidURL. rewrite E.
  by destruct (String.eqb _ "http"), (String.eqb _ "https").
Qed.

Lemma isValidURL_parse_error s url e w :
  NetURL.ParseRequestURI parseHier s = (url, Some e) →
  isValidURL parseHier s w = Crash NilPointerDereference w.
Proof.
  intros E. unfold isValidURL. rewrite E.
  by rewrite (ParseRequestURI_error_nil _ _ _ E).
Qed.

(** [isValidURL] leaves the world as it is. *)
Lemma isValidURL_pure s w :
  (∃ ok, isValidURL parseHier s w = Done ok w)
  ∨ isValidURL parseHier s w = Crash NilPointerDereference w.
Proof.
  unfold isValidURL.
  destruct (NetURL.ParseRequestURI parseHier s) as [[url|] [e|]];
    try (by right);
    destruct (negb _ && negb _); left; by eexists.
Qed.

(** A host that parses with another scheme ends the process with the
    message that names the endpoint and the host. *)
Lemma checkHost_other_scheme ec host url w :
  NetURL.ParseRequestURI parseHier host = (Some url, None) →
  String.eqb (NetURL.Scheme url) "http" = false →
  String.eqb (NetURL.Scheme url) "https" = false →
  checkHost parseHier ec host w =
  Exit1 "(%s) [%s] is not a valid endpoint url"
        [LStr (cfgName ec); LStr host] w.
Proof.
  intros E S1 S2. unfold checkHost, mbind, M_bind.
  by rewrite (isValidURL_parsed _ _ _ E), S1, S2.
Qed.

Lemma checkHost_accepts ec host url w :
  NetURL.ParseRequestURI parseHier host = (Some url, None) →
  String.eqb (NetURL.Scheme url) "http"
  || String.eqb (NetURL.Scheme url) "https" = true →
  checkHost parseHier ec host w = Done tt w.
Proof.
  intros E S1. unfold checkHost, mbind, M_bind.
  by rewrite (isValidURL_parsed _ _ _ E), S1.
Qed.

Lemma checkHosts_pure ec hosts w w' :
  forM_ (checkHost parseHier ec) hosts w = Done tt w' → w' = w.
Proof.
  induction hosts as [|host hosts IH]; cbn [forM_]; intros H.
  - by injection H.
  - apply bind_Done_inv in H as (a & w1 & Hc & Hr).
    unfold checkHost in Hc. apply bind_Done_inv in Hc as (ok & w2 & Hv & Hf).
    destruct (isValidURL_pure host w) as [[ok' E]|E];
      rewrite E in Hv; [|done].
    injection Hv as <- <-. destruct ok'; [|done].
    injection Hf as <- <-. by apply IH.
Qed.

End Validation.

(** ** Start-up *)

Lemma seq_from (a n : nat) (f : nat → chan) :
  map f (seq (S a) n) = map (λ i, f (S i)) (seq a n).
Proof. by rewrite <- seq_shift, map_map. Qed.

Section Startup.
Variable parseHier : NetURL.URL → string → option NetURL.URL * error.
Variables (o : Options) (dataDir : string).

Lemma startEndpoint_Done ec w e w' :
  startEndpoint parseHier o dataDir ec w = Done e w' →
  ∃ l, actions w' = actions w ++ l
    ∧ Name e = cfgName ec ∧ Hosts e = cfgHosts ec
    ∧ Timeout e = optTimeout o
    ∧ Writer e = Chan (length (chans w))
    ∧ pipelines l = [queue_of o dataDir e] ∧ spawned l = crew_of o e
    ∧ chans w' = chans w ++ [0; optConcurrency o; 0].
Proof.
  unfold startEndpoint. intros H.
  apply bind_Done_inv in H as ([] & w1 & Hc & H).
  apply checkHosts_pure in Hc as ->.
  revert H. unfold durable_Channel. run_M. unfold make_chan. cbn.
  destruct (optConcurrency o <? 0); [done|]. cbn.
  rewrite forM__emit. intros [= <- <-].
  eexists. split.
  { cbn [actions emit]. rewrite actions_foldl_emit.
    cbn [actions emit new_chan]. rewrite <- !app_assoc. cbn [app].
    reflexivity. }
  cbn [Name Hosts Timeout Writer chans emit].
  rewrite chans_foldl_emit. cbn [chans emit new_chan].
  rewrite <- !app_assoc. cbn [app].
  repeat split.
  - change (?a :: ?b :: ?c :: ?l) with ([a; b; c] ++ l).
    rewrite !pipelines_app, pipelines_Spawn. done.
  - change (?a :: ?b :: ?c :: ?l) with ([a; b; c] ++ l).
    rewrite !spawned_app, spawned_Spawn, length_seq. done.
Qed.

Lemma startEndpoints_Done ecs : ∀ ep w ep' w',
  startEndpoints parseHier o dataDir ecs ep w = Done ep' w' →
  ∃ new l, ep' = ep ++ new ∧ actions w' = actions w ++ l
    ∧ map Name new = map cfgName ecs ∧ map Hosts new = map cfgHosts ecs
    ∧ Forall (λ e, Timeout e = optTimeout o) new
    ∧ map Writer new =
        map (λ i, Chan (length (chans w) + 3 * i)) (seq 0 (length ecs))
    ∧ pipelines l = map (queue_of o dataDir) new
    ∧ spawned l = flat_map (crew_of o) new.
Proof.
  induction ecs as [|ec ecs IH]; intros ep w ep' w' H.
  - injection H as <- <-. exists [], []. by rewrite !app_nil_r.
  - cbn [startEndpoints] in H.
    apply bind_Done_inv in H as (e & w1 & He & H).
    apply startEndpoint_Done in He
      as (l1 & A1 & N1 & H1 & T1 & W1 & P1 & S1 & C1).
    apply IH in H as (new & l2 & -> & A2 & N2 & H2 & T2 & W2 & P2 & S2).
    exists (e :: new), (l1 ++ l2). rewrite A2, A1, <- !app_assoc.
    rewrite pipelines_app, spawned_app, P1, P2, S1, S2.
    cbn [map flat_map app length seq]. rewrite N1, N2, H1, H2, W1, W2.
    rewrite C1, length_app. cbn [length].
    rewrite (seq_from 0), Nat.add_0_r.
    split; [done|]. split; [done|]. split; [done|]. split; [done|].
    split; [by constructor|]. split; [|done].
    f_equal. apply map_ext. intros i. f_equal. lia.
Qed.

End Startup.

Section Listen.
Variable parseHier : NetURL.URL → string → option NetURL.URL * error.

Lemma ListenAndServe_Done config addr dataDir disk w h w' :
  ListenAndServe parseHier config addr dataDir disk w = Done h w' →
  ∃ l, actions w' = actions w ++ l ++ [Listen addr]
    ∧ map Name (Endpoints h) = map cfgName (Config_Endpoints config)
    ∧ map Hosts (Endpoints h) = map cfgHosts (Config_Endpoints config)
    ∧ Forall (λ e, Timeout e = optTimeout (options config)) (Endpoints h)
    ∧ NoDup (map Writer (Endpoints h))
    ∧ pipelines l = map (queue_of (options config) dataDir) (Endpoints h)
    ∧ spawned l = flat_map (crew_of (options config)) (Endpoints h).
Proof.
  intros H. unfold ListenAndServe in H.
  apply bind_Done_inv in H as ([] & w1 & Hdir & H).
  apply bind_Done_inv in H as ([] & w2 & Hreg & H).
  apply bind_Done_inv in H as (ep & w3 & Hep & H).
  injection Hreg as <-.
  apply startEndpoints_Done in Hep
    as (new & l & -> & A & N & Hh & T & W & P & S).
  revert H. run_M. intros [= <- <-]. cbn [Endpoints actions emit].
  rewrite A. cbn [actions emit].
  assert (∃ l0, actions w1 = actions w ++ l0 ∧ pipelines l0 = []
                ∧ spawned l0 = []) as (l0 & -> & P0 & S0).
  { revert Hdir. destruct (dataDirMissing disk).
    - run_M. destruct (mkdirErr disk); [done|]. intros [= <-].
      eexists. cbn [actions emit]. rewrite <- !app_assoc. done.
    - intros [= <-]. exists []. by rewrite app_nil_r. }
  exists (l0 ++ [MustRegister] ++ l
          ++ [Handle "/metrics"; Handle "/";
              Log PrintLevel "listening on %s" [LStr addr]]).
  rewrite <- !app_assoc. split; [done|].
  rewrite !pipelines_app, !spawned_app, P0, S0, P, S.
  cbn [app]. rewrite !app_nil_r.
  split; [done|]. split; [done|]. split; [done|]. split; [|done].
  rewrite W. apply NoDup_fmap_2; [|apply NoDup_seq].
  intros i j [= E]. lia.
Qed.

End Listen.

(** * The claims *)

(** C1, where the code departs from it. One worker of a group of three
    hosts is given nine records that all go through. The spec's round
    robin sends three of them to each host; [HTTPWorker], whose [count]
    stays at zero, sends the nine of them to the first host. *)
Theorem HTTPWorker_never_rotates_hosts :
  ∃ w', HTTPWorker url_Parse_lax group3 (replicate 9 delivered) world0
        = Done tt w'
    ∧ dispatched w' = replicate 9 "http://10.0.0.1:8080/ingest"
    ∧ map (λ host, received host "/ingest" (dispatched w')) [H1; H2; H3]
      = [9; 0; 0]%nat
    ∧ map (λ host, received host "/ingest"
                     (spec_round_robin [H1; H2; H3] (replicate 9 post_ingest)))
          [H1; H2; H3]
      = [3; 3; 3]%nat.
Proof. eexists. split; [vm_compute; reflexivity|]. by vm_compute. Qed.

(** C2, where the code departs from it. A host written without its
    scheme, like the empty host, does not parse; [isValidURL] reads the
    scheme of the nil URL and panics, and so does [ListenAndServe], before
    any message that names the endpoint and the host. *)
Theorem isValidURL_panics_on_unparsable_host
    (parseHier : NetURL.URL → string → option NetURL.URL * error)
    (w : World) :
  NetURL.ParseRequestURI parseHier "127.0.0.1:8080"
  = (None, Some "invalid URI for request")
  ∧ isValidURL parseHier "127.0.0.1:8080" w = Crash NilPointerDereference w
  ∧ isValidURL parseHier "" w = Crash NilPointerDereference w
  ∧ ListenAndServe parseHier config_unparsable ":8080" "data" disk_ready w
    = Crash NilPointerDereference (emit MustRegister w).
Proof. repeat split. Qed.

(** C3, at a body of 2048 bytes under a limit of 1024: the handler that
    [ListenAndServe] installs answers 204, counts no failure, and sends the
    record on the inbox of the endpoint. *)
Lemma oversized_body_is_accepted :
  ListenAndServe parseHier_lax config_1k ":8080" "data" disk_ready world0
  = Done handler_1k serving_1k
  ∧ pipelines (actions serving_1k)
    = [(Chan 0, Chan 2,
        mkDurableConfig "a" "data" (2 ^ 30) 0 1024 10000 (10 * Second))]
  ∧ optMaxMsgSize (options config_1k) < Z.of_nat (length (inBody post_2k))
  ∧ ∃ w', HandleRequest handler_1k post_2k serving_1k = Done tt w'
      ∧ replies (since serving_1k w') = [StatusNoContent]
      ∧ sends (since serving_1k w')
        = [(Chan 0, mkRequest "POST" "/ingest" (inBody post_2k))]
      ∧ failures w' = failures serving_1k.
Proof.
  split; [by vm_compute|]. split; [by vm_compute|]. split; [by vm_compute|].
  eexists. split; [vm_compute; reflexivity|]. by vm_compute.
Qed.

(** C3, as the code has it. The handler puts no bound on the body. It
    answers 400 and counts a failure when reading the body fails, and then
    sends nothing; a body that is read, of whatever length, is sent to
    every endpoint and answered with 204, with no failure counted. *)
Theorem HandleRequest_rejects_read_errors_only
    (h : Handler) (m u : string) (b : list byte) (w : World) :
  (∀ e, ∃ w',
      HandleRequest h (mkIngressRequest m u b (Some e)) w = Done tt w'
      ∧ replies (since w w') = [StatusBadRequest]
      ∧ sends (since w w') = []
      ∧ failures w' = S (failures w))
  ∧ (∃ w', HandleRequest h (mkIngressRequest m u b None) w = Done tt w'
      ∧ replies (since w w') = [StatusNoContent]
      ∧ sends (since w w') =
          map (λ e, (Writer e, mkRequest m u b)) (Endpoints h)
      ∧ failures w' = failures w).
Proof.
  split.
  - intros e.
    destruct (HandleRequest_read_error h m u b e w) as (w' & E & Ha & _ & F).
    exists w'. rewrite (since_app _ _ _ Ha). done.
  - destruct (HandleRequest_read h m u b w) as (w' & E & Ha & _ & F).
    exists w'. rewrite (since_app _ _ _ Ha).
    split; [done|]. split; [by rewrite replies_fan_out|].
    split; [|done]. rewrite sends_fan_out. apply app_nil_r.
Qed.

(** C4. Let [ListenAndServe] have started with the handler [h]. A request
    whose body is read makes one record; the handler sends that record once
    on the inbox of each queue opened at start-up, one queue per configured
    endpoint and no inbox twice, and everything it does before it writes
    the response header is these sends: the header is 204 and comes after
    the last of them. *)
Theorem HandleRequest_fans_out_then_replies
    (parseHier : NetURL.URL → string → option NetURL.URL * error)
    (config : Config) (addr dataDir : string) (disk : Disk) (w0 w1 : World)
    (h : Handler) (m u : string) (b : list byte) (w : World) :
  ListenAndServe parseHier config addr dataDir disk w0 = Done h w1 →
  let r := mkRequest m u b in
  let inboxes := map (λ q, q.1.1) (pipelines (since w0 w1)) in
  length inboxes = length (Config_Endpoints config)
  ∧ NoDup inboxes
  ∧ ∃ w', HandleRequest h (mkIngressRequest m u b None) w = Done tt w'
      ∧ sends (since w w') = map (λ c, (c, r)) inboxes
      ∧ before_reply (since w w') = map (λ c, Send c r) inboxes
      ∧ replies (since w w') = [StatusNoContent].
Proof.
  intros H r inboxes.
  apply ListenAndServe_Done in H as (l & A & N & _ & _ & ND & P & _).
  assert (inboxes = map Writer (Endpoints h)) as ->.
  { subst inboxes. rewrite (since_app _ _ _ A), pipelines_app, P.
    cbn. rewrite app_nil_r, map_map. done. }
  split.
  { rewrite length_map, <- (length_map cfgName), <- N. by rewrite length_map. }
  split; [done|].
  destruct (HandleRequest_read h m u b w) as (w' & E & Ha & _).
  exists w'. split; [done|]. rewrite (since_app _ _ _ Ha), !map_map.
  split; [|split].
  - rewrite sends_fan_out. apply app_nil_r.
  - apply before_reply_fan_out.
  - by rewrite replies_fan_out.
Qed.

Lemma HandleRequest_fans_out_then_replies_witness :
  ListenAndServe parseHier_lax config_1k ":8080" "data" disk_ready world0
  = Done handler_1k serving_1k
  ∧ ∃ w', HandleRequest handler_1k
            (mkIngressRequest "POST" "/ingest" hello None) serving_1k
          = Done tt w'
      ∧ sends (since serving_1k w') = [(Chan 0, post_ingest)]
      ∧ before_reply (since serving_1k w') = [Send (Chan 0) post_ingest]
      ∧ replies (since serving_1k w') = [StatusNoContent].
Proof.
  assert (ListenAndServe parseHier_lax config_1k ":8080" "data" disk_ready
            world0 = Done handler_1k serving_1k) as H
    by (vm_compute; reflexivity).
  split; [exact H|].
  exact (proj2 (proj2 (HandleRequest_fans_out_then_replies
           parseHier_lax config_1k ":8080" "data" disk_ready world0
           serving_1k handler_1k "POST" "/ingest" hello serving_1k H))).
Defined.

(** C5. When [client.Do] returns an error for a record, the worker sends
    that record on the [Writer] channel of its own endpoint and goes on
    with the next record; it writes nothing to an ingress response and
    leaves the ingress counters alone. The world [w'] is the one the worker
    reaches on that record alone; whatever records follow, it handles them
    from there. *)
Theorem HTTPWorker_requeues_on_transport_error
    (url_Parse : string → error) (endpoint : Endpoint) (h : string)
    (hs : list string) (d : Delivery) (ds : list Delivery)
    (p : ProxyRequest) (e : string) (w : World) :
  Hosts endpoint = h :: hs →
  NewRequest url_Parse (Method (dRecord d))
             (String.append h (URL (dRecord d))) (Body (dRecord d)) = inl p →
  dResult d = TransportError e →
  ∃ w', HTTPWorker url_Parse endpoint [d] w = Done tt w'
    ∧ HTTPWorker url_Parse endpoint (d :: ds) w =
      HTTPWorker url_Parse endpoint ds w'
    ∧ since w w' = [ClientDo (Timeout endpoint) p;
                    Log DebugLevel "error: %s" [LErr e];
                    Send (Writer endpoint) (dRecord d)]
    ∧ sends (since w w') = [(Writer endpoint, dRecord d)]
    ∧ replies (since w w') = []
    ∧ requests w' = requests w ∧ failures w' = failures w.
Proof.
  intros Hh E R.
  rewrite !(HTTPWorker_cons url_Parse endpoint),
          (iter_failed _ _ _ _ Hh _ _ _ _ E R).
  eexists; split; [reflexivity|]. split; [reflexivity|].
  unfold since; cbn [actions emit inc_endpointRequests inc_endpointFailures
                     observe_endpointLatency].
  rewrite <- !app_assoc; cbn [app]; rewrite drop_app_length. done.
Qed.

Lemma HTTPWorker_requeues_on_transport_error_witness :
  Hosts group3 = H1 :: [H2; H3]
  ∧ NewRequest url_Parse_lax "POST" "http://10.0.0.1:8080/ingest" hello
    = inl (mkProxyRequest "POST" "http://10.0.0.1:8080/ingest" hello)
  ∧ dResult refused = TransportError "connection refused"
  ∧ ∃ w', HTTPWorker url_Parse_lax group3 [refused] world0 = Done tt w'
      ∧ HTTPWorker url_Parse_lax group3 [refused; delivered] world0 =
        HTTPWorker url_Parse_lax group3 [delivered] w'
      ∧ since world0 w' =
          [ClientDo (10 * Second)
             (mkProxyRequest "POST" "http://10.0.0.1:8080/ingest" hello);
           Log DebugLevel "error: %s" [LErr "connection refused"];
           Send (Chan 0) post_ingest]
      ∧ sends (since world0 w') = [(Chan 0, post_ingest)]
      ∧ replies (since world0 w') = []
      ∧ requests w' = requests world0 ∧ failures w' = failures world0.
Proof.
  split; [reflexivity|]. split; [reflexivity|]. split; [reflexivity|].
  exact (HTTPWorker_requeues_on_transport_error url_Parse_lax group3 H1
           [H2; H3] refused [delivered]
           (mkProxyRequest "POST" "http://10.0.0.1:8080/ingest" hello)
           "connection refused" world0 eq_refl eq_refl eq_refl).
Defined.

(** C6, at a host that answers the record with a 302 and a [Location],
    well within the timeout: the client follows the redirect, nobody
    listens at the location, and [client.Do] returns an error. The worker
    then counts a failure of the endpoint and sends the record on the
    [Writer] again; it reads and closes no body. *)
Lemma redirect_answered_yet_requeued :
  moved_then_refused
  = Redirects 302 "http://10.0.0.9:8080/ingest" (NoAnswer "connection refused")
  ∧ dElapsedNS redirected < Timeout group3
  ∧ dResult redirected = TransportError "connection refused"
  ∧ ∃ w', HTTPWorker url_Parse_lax group3 [redirected] world0 = Done tt w'
      ∧ sends (since world0 w') = [(Writer group3, post_ingest)]
      ∧ discards (since world0 w') = []
      ∧ closes (since world0 w') = []
      ∧ endpointFailures w' !!! "a" = 1%nat.
Proof.
  split; [reflexivity|]. split; [reflexivity|]. split; [reflexivity|].
  eexists. split; [reflexivity|]. by vm_compute.
Qed.

(** C6. When [client.Do] returns a response and no error, whatever the
    status of that response, the worker reads the body to its end into the
    void, closes it, and goes on with the next record: it sends the record
    nowhere and counts no failure. The world [w'] is the one the worker
    reaches on that record alone; whatever records follow, it handles them
    from there. *)
Theorem HTTPWorker_response_is_delivery
    (url_Parse : string → error) (endpoint : Endpoint) (h : string)
    (hs : list string) (d : Delivery) (ds : list Delivery)
    (p : ProxyRequest) (status : Z) (body : list byte) (w : World) :
  Hosts endpoint = h :: hs →
  NewRequest url_Parse (Method (dRecord d))
             (String.append h (URL (dRecord d))) (Body (dRecord d)) = inl p →
  dResult d = Response status body →
  ∃ w', HTTPWorker url_Parse endpoint [d] w = Done tt w'
    ∧ HTTPWorker url_Parse endpoint (d :: ds) w =
      HTTPWorker url_Parse endpoint ds w'
    ∧ since w w' = [ClientDo (Timeout endpoint) p; Discard body;
                    CloseResponse]
    ∧ sends (since w w') = []
    ∧ endpointFailures w' = endpointFailures w.
Proof.
  intros Hh E R.
  rewrite !(HTTPWorker_cons url_Parse endpoint),
          (iter_delivered _ _ _ _ Hh _ _ _ _ _ E R).
  eexists; split; [reflexivity|]. split; [reflexivity|].
  unfold since; cbn [actions emit inc_endpointRequests
                     observe_endpointLatency].
  rewrite <- !app_assoc; cbn [app]; rewrite drop_app_length. done.
Qed.

Lemma HTTPWorker_response_is_delivery_witness :
  Hosts group3 = H1 :: [H2; H3]
  ∧ NewRequest url_Parse_lax "POST" "http://10.0.0.1:8080/ingest" hello
    = inl (mkProxyRequest "POST" "http://10.0.0.1:8080/ingest" hello)
  ∧ dResult answered_503 = Response 503 hello
  ∧ ∃ w', HTTPWorker url_Parse_lax group3 [answered_503] world0 = Done tt w'
      ∧ HTTPWorker url_Parse_lax group3 [answered_503; refused] world0 =
        HTTPWorker url_Parse_lax group3 [refused] w'
      ∧ since world0 w' =
          [ClientDo (10 * Second)
             (mkProxyRequest "POST" "http://10.0.0.1:8080/ingest" hello);
           Discard hello; CloseResponse]
      ∧ sends (since world0 w') = []
      ∧ endpointFailures w' = endpointFailures world0.
Proof.
  split; [reflexivity|]. split; [reflexivity|]. split; [reflexivity|].
  exact (HTTPWorker_response_is_delivery url_Parse_lax group3 H1 [H2; H3]
           answered_503 [refused]
           (mkProxyRequest "POST" "http://10.0.0.1:8080/ingest" hello)
           503 hello world0 eq_refl eq_refl eq_refl).
Defined.

(** C7. The options [ListenAndServe] works with are the configured ones,
    except that a zero timeout becomes ten seconds, a zero concurrency 25
    and a zero maximal message size ten mebibytes; and when start-up goes
    through, these are the timeout of every endpoint, the size limit of
    every queue opened, and the number of workers started per endpoint. *)
Theorem ListenAndServe_applies_defaults
    (parseHier : NetURL.URL → string → option NetURL.URL * error)
    (config : Config) :
  let timeout :=
    if HTTP_Timeout config =? 0 then 10 * Second else HTTP_Timeout config in
  let concurrency :=
    if HTTP_Concurrency config =? 0 then 25 else HTTP_Concurrency config in
  let maxMsgSize :=
    if Queue_MaxMessageSize config =? 0 then 10 * 2 ^ 20
    else Queue_MaxMessageSize config in
  options config = mkOptions timeout maxMsgSize concurrency
  ∧ ∀ addr dataDir disk w h w',
      ListenAndServe parseHier config addr dataDir disk w = Done h w' →
      Forall (λ e, Timeout e = timeout) (Endpoints h)
      ∧ map (λ q, MaxMsgSize q.2) (pipelines (since w w'))
        = replicate (length (Config_Endpoints config)) maxMsgSize
      ∧ spawned (since w w')
        = flat_map (λ e, replicate (Z.to_nat concurrency) (GoHTTPWorker e)
                         ++ [GoReadDiskChannel e])
                   (Endpoints h).
Proof.
  intros timeout concurrency maxMsgSize.
  split; [apply options_eq|].
  intros addr dataDir disk w h w' H.
  apply ListenAndServe_Done in H as (l & A & N & _ & T & _ & P & S).
  rewrite (since_app _ _ _ A), pipelines_app, spawned_app, P, S.
  rewrite options_eq in *. cbn [optTimeout] in T.
  split; [exact T|]. cbn. rewrite !app_nil_r. split; [|reflexivity].
  subst maxMsgSize.
  rewrite map_map. cbn.
  rewrite <- (length_map cfgName), <- N, length_map.
  apply map_const_replicate.
Qed.

Lemma ListenAndServe_applies_defaults_witness :
  ListenAndServe parseHier_lax config_1k ":8080" "data" disk_ready world0
  = Done handler_1k serving_1k
  ∧ Forall (λ e, Timeout e = 10 * Second) (Endpoints handler_1k)
  ∧ map (λ q, MaxMsgSize q.2) (pipelines (since world0 serving_1k)) = [1024]
  ∧ spawned (since world0 serving_1k)
    = flat_map (λ e, replicate 25 (GoHTTPWorker e) ++ [GoReadDiskChannel e])
               (Endpoints handler_1k).
Proof.
  assert (ListenAndServe parseHier_lax config_1k ":8080" "data" disk_ready
            world0 = Done handler_1k serving_1k) as H
    by (vm_compute; reflexivity).
  split; [exact H|].
  exact (proj2 (ListenAndServe_applies_defaults parseHier_lax config_1k)
           ":8080" "data" disk_ready world0 handler_1k serving_1k H).
Defined.

(** C8, at a configuration without endpoints: [ListenAndServe] does not
    end the process; it goes on to listen, with a handler that has no
    endpoint. *)
Lemma empty_endpoints_still_serve :
  Config_Endpoints config_empty = []
  ∧ (∃ w', ListenAndServe parseHier_lax config_empty ":8080" "data"
             disk_ready world0
           = Done (mkHandler []) w'
       ∧ last (actions w') = Some (Listen ":8080"))
  ∧ ∀ format args w',
      ListenAndServe parseHier_lax config_empty ":8080" "data" disk_ready
                     world0
      ≠ Exit1 format args w'.
Proof.
  split; [done|]. split; [|done].
  eexists. split; [vm_compute; reflexivity|]. done.
Qed.

(** C8, as the code has it. With no endpoint in the configuration and a
    data directory that exists or can be made, [ListenAndServe] opens no
    queue, starts no goroutine and goes on to listen, with a handler that
    has no endpoint. *)
Theorem ListenAndServe_serves_without_endpoints
    (parseHier : NetURL.URL → string → option NetURL.URL * error)
    (config : Config) (addr dataDir : string) (disk : Disk) (w : World) :
  Config_Endpoints config = [] →
  (dataDirMissing disk = true → mkdirErr disk = None) →
  ∃ w', ListenAndServe parseHier config addr dataDir disk w
        = Done (mkHandler []) w'
    ∧ last (actions w') = Some (Listen addr)
    ∧ pipelines (since w w') = []
    ∧ spawned (since w w') = []
    ∧ chans w' = chans w.
Proof.
  intros E Hdisk. unfold ListenAndServe. rewrite E.
  destruct (dataDirMissing disk) eqn:Hmiss.
  - rewrite Hdisk by done. run_M.
    eexists; split; [reflexivity|]. cbn [actions emit chans].
    split; [by rewrite last_snoc|].
    unfold since; cbn [actions emit]. rewrite <- !app_assoc; cbn [app].
    rewrite drop_app_length. done.
  - run_M. eexists; split; [reflexivity|]. cbn [actions emit chans].
    split; [by rewrite last_snoc|].
    unfold since; cbn [actions emit]. rewrite <- !app_assoc; cbn [app].
    rewrite drop_app_length. done.
Qed.

Lemma ListenAndServe_serves_without_endpoints_witness :
  Config_Endpoints config_empty = []
  ∧ (dataDirMissing disk_blank = true → mkdirErr disk_blank = None)
  ∧ ∃ w', ListenAndServe parseHier_lax config_empty ":8080" "data"
            disk_blank world0
          = Done (mkHandler []) w'
      ∧ last (actions w') = Some (Listen ":8080")
      ∧ pipelines (since world0 w') = []
      ∧ spawned (since world0 w') = []
      ∧ chans w' = chans world0.
Proof.
  split; [reflexivity|]. split; [intros _; reflexivity|].
  exact (ListenAndServe_serves_without_endpoints parseHier_lax config_empty
           ":8080" "data" disk_blank world0 eq_refl (λ _, eq_refl)).
Defined.

(** C9. Over any run of a worker, the requests counter of its endpoint
    grows by one for each call of [client.Do], the failures counter by one
    for each call that returned an error, and the latency histogram takes,
    for each call and in their order, the nanoseconds elapsed divided by a
    thousand; the collectors of other endpoints stay as they are. *)
Theorem HTTPWorker_counts_each_dispatch
    (url_Parse : string → error) (endpoint : Endpoint) (h : string)
    (hs : list string) (ds : list Delivery) (w : World) :
  Hosts endpoint = h :: hs →
  let n := Name endpoint in
  let sent := filter (λ d, builds url_Parse h d = true) ds in
  ∃ w', HTTPWorker url_Parse endpoint ds w = Done tt w'
    ∧ length (dispatched w') = (length (dispatched w) + length sent)%nat
    ∧ endpointRequests w' !!! n = (endpointRequests w !!! n + length sent)%nat
    ∧ endpointFailures w' !!! n =
        (endpointFailures w !!! n
         + length (filter (λ d, failed d = true) sent))%nat
    ∧ endpointLatencyHistogram w' !!! n =
        endpointLatencyHistogram w !!! n
        ++ map (λ d, Z.quot (dElapsedNS d) 1000) sent
    ∧ (∀ l, l ≠ n →
         endpointRequests w' !!! l = endpointRequests w !!! l
         ∧ endpointFailures w' !!! l = endpointFailures w !!! l
         ∧ endpointLatencyHistogram w' !!! l
           = endpointLatencyHistogram w !!! l).
Proof.
  intros Hh n sent.
  destruct (HTTPWorker_run url_Parse endpoint h hs Hh ds w)
    as (w' & E & D & RQ & FL & HI & OT & _).
  exists w'. split; [done|]. split; [|done].
  rewrite D, length_app, length_map. done.
Qed.

Lemma HTTPWorker_counts_each_dispatch_witness :
  Hosts group3 = H1 :: [H2; H3]
  ∧ ∃ w', HTTPWorker url_Parse_lax group3
            [refused; bad_method; answered_503; delivered] world0
          = Done tt w'
      ∧ length (dispatched w') = 3%nat
      ∧ endpointRequests w' !!! "a" = 3%nat
      ∧ endpointFailures w' !!! "a" = 1%nat
      ∧ endpointLatencyHistogram w' !!! "a" = [250; 1500; 1500]
      ∧ (∀ l, l ≠ "a" →
           endpointRequests w' !!! l = endpointRequests world0 !!! l
           ∧ endpointFailures w' !!! l = endpointFailures world0 !!! l
           ∧ endpointLatencyHistogram w' !!! l
             = endpointLatencyHistogram world0 !!! l).
Proof.
  split; [reflexivity|].
  exact (HTTPWorker_counts_each_dispatch url_Parse_lax group3 H1 [H2; H3]
           [refused; bad_method; answered_503; delivered] world0 eq_refl).
Defined.

(** C10. When [http.NewRequest] returns an error for a record, the worker
    logs it at debug level and goes on with the next record: no upstream
    call, no send on any channel, and no collector is touched. *)
Theorem HTTPWorker_drops_on_NewRequest_error
    (url_Parse : string → error) (endpoint : Endpoint) (h : string)
    (hs : list string) (d : Delivery) (ds : list Delivery) (err : string)
    (w : World) :
  Hosts endpoint = h :: hs →
  NewRequest url_Parse (Method (dRecord d))
             (String.append h (URL (dRecord d))) (Body (dRecord d))
  = inr err →
  ∃ w', HTTPWorker url_Parse endpoint (d :: ds) w =
        HTTPWorker url_Parse endpoint ds w'
    ∧ since w w' = [Log DebugLevel "error: %s" [LErr err]]
    ∧ sends (since w w') = []
    ∧ dispatched w' = dispatched w
    ∧ endpointRequests w' = endpointRequests w
    ∧ endpointFailures w' = endpointFailures w
    ∧ endpointLatencyHistogram w' = endpointLatencyHistogram w.
Proof.
  intros Hh E.
  rewrite (HTTPWorker_cons url_Parse endpoint),
          (iter_dropped _ _ _ _ Hh _ _ _ E).
  eexists; split; [reflexivity|].
  autorewrite with world. rewrite app_nil_r.
  unfold since; cbn [actions emit]. rewrite drop_app_length. done.
Qed.

Lemma HTTPWorker_drops_on_NewRequest_error_witness :
  Hosts group3 = H1 :: [H2; H3]
  ∧ NewRequest url_Parse_lax "BAD METHOD" "http://10.0.0.1:8080/ingest" hello
    = inr "net/http: invalid method"
  ∧ ∃ w', HTTPWorker url_Parse_lax group3 [bad_method; delivered] world0 =
          HTTPWorker url_Parse_lax group3 [delivered] w'
      ∧ since world0 w' =
          [Log DebugLevel "error: %s" [LErr "net/http: invalid method"]]
      ∧ sends (since world0 w') = []
      ∧ dispatched w' = dispatched world0
      ∧ endpointRequests w' = endpointRequests world0
      ∧ endpointFailures w' = endpointFailures world0
      ∧ endpointLatencyHistogram w' = endpointLatencyHistogram world0.
Proof.
  split; [reflexivity|]. split; [reflexivity|].
  exact (HTTPWorker_drops_on_NewRequest_error url_Parse_lax group3 H1
           [H2; H3] bad_method [delivered] "net/http: invalid method" world0
           eq_refl eq_refl).
Defined.

(** * Further properties *)

(** ** Observations of a concatenation *)

Lemma sends_app l1 l2 : sends (l1 ++ l2) = sends l1 ++ sends l2.
Proof. apply omap_app. Qed.

Lemma replies_app l1 l2 : replies (l1 ++ l2) = replies l1 ++ replies l2.
Proof. apply omap_app. Qed.

Lemma calls_app l1 l2 : calls (l1 ++ l2) = calls l1 ++ calls l2.
Proof. apply omap_app. Qed.

Lemma discards_app l1 l2 : discards (l1 ++ l2) = discards l1 ++ discards l2.
Proof. apply omap_app. Qed.

Lemma closes_app l1 l2 : closes (l1 ++ l2) = closes l1 ++ closes l2.
Proof. apply omap_app. Qed.

Lemma logged_app l1 l2 : logged (l1 ++ l2) = logged l1 ++ logged l2.
Proof. apply omap_app. Qed.

(** ** The reader of the queue *)

Lemma wrap64_small z : - 2 ^ 63 <= z < 2 ^ 63 → wrap64 z = z.
Proof. intros H. unfold wrap64. rewrite Z.mod_small; lia. Qed.

Lemma thousands_step c :
  0 <= c →
  (c + 1) / 1000 = c / 1000 + (if Z.rem (c + 1) 1000 =? 0 then 1 else 0).
Proof.
  intros H. rewrite Z.rem_mod_nonneg by lia.
  destruct (Z.eqb_spec ((c + 1) mod 1000) 0) as [E|E];
    Z.div_mod_to_equations; lia.
Qed.

Lemma ReadDiskChannel_from_app endpoint l1 : ∀ l2 count w,
  ReadDiskChannel_from endpoint count (l1 ++ l2) w =
  match ReadDiskChannel_from endpoint count l1 w with
  | Receiving count' w' => ReadDiskChannel_from endpoint count' l2 w'
  | AssertionPanic w' => AssertionPanic w'
  end.
Proof.
  induction l1 as [|item l1 IH]; intros l2 count w; [done|].
  cbn [app ReadDiskChannel_from]. destruct (assert_Request item); [|done].
  apply IH.
Qed.

(** A run on requests only: what is sent, and what else happens. *)
Lemma ReadDiskChannel_from_requests endpoint rs : ∀ count w,
  ∃ count' w' l,
    ReadDiskChannel_from endpoint count (map IsRequest rs) w
    = Receiving count' w'
    ∧ actions w' = actions w ++ l
    ∧ sends l = map (λ r, (WorkerChannel endpoint, r)) rs
    ∧ Forall (λ e, e = (DebugLevel, "processed 1000 operations", []))
             (logged l)
    ∧ length l = (length rs + length (logged l))%nat
    ∧ requests w' = requests w ∧ failures w' = failures w
    ∧ endpointRequests w' = endpointRequests w
    ∧ endpointFailures w' = endpointFailures w
    ∧ endpointLatencyHistogram w' = endpointLatencyHistogram w
    ∧ chans w' = chans w.
Proof.
  induction rs as [|r rs IH]; intros count w.
  { exists count, w, []. by rewrite app_nil_r. }
  cbn [map ReadDiskChannel_from assert_Request].
  set (c1 := wrap64 (count + 1)).
  destruct (Z.rem c1 1000 =? 0).
  - destruct (IH c1 (emit (Send (WorkerChannel endpoint) r)
                 (emit (Log DebugLevel "processed 1000 operations" []) w)))
      as (c' & w' & l & E & A & S & L & N & F1 & F2 & F3 & F4 & F5 & F6).
    exists c', w',
      (Log DebugLevel "processed 1000 operations" []
       :: Send (WorkerChannel endpoint) r :: l).
    split; [done|]. rewrite A, F1, F2, F3, F4, F5, F6.
    cbn [actions emit]. rewrite <- !app_assoc.
    split; [done|].
    change (?a :: ?b :: l) with ([a; b] ++ l).
    rewrite sends_app, logged_app, S, length_app, N.
    split; [done|]. split; [by constructor|]. cbn. split; [lia|done].
  - destruct (IH c1 (emit (Send (WorkerChannel endpoint) r) w))
      as (c' & w' & l & E & A & S & L & N & F1 & F2 & F3 & F4 & F5 & F6).
    exists c', w', (Send (WorkerChannel endpoint) r :: l).
    split; [done|]. rewrite A, F1, F2, F3, F4, F5, F6.
    cbn [actions emit]. rewrite <- !app_assoc.
    split; [done|].
    change (?a :: l) with ([a] ++ l).
    rewrite sends_app, logged_app, S, length_app, N.
    split; [done|]. split; [done|]. cbn. split; [lia|done].
Qed.

(** The counter and the log lines, while the counter does not overflow. *)
Lemma ReadDiskChannel_from_count endpoint rs : ∀ count w count' w',
  0 <= count → count + Z.of_nat (length rs) < 2 ^ 63 →
  ReadDiskChannel_from endpoint count (map IsRequest rs) w
  = Receiving count' w' →
  count' = count + Z.of_nat (length rs)
  ∧ Z.of_nat (length (logged (since w w'))) = count' / 1000 - count / 1000.
Proof.
  induction rs as [|r rs IH]; intros count w count' w' H0 Hn H.
  { injection H as <- <-. unfold since. rewrite drop_all. cbn. lia. }
  cbn [map ReadDiskChannel_from assert_Request] in H.
  cbn [length] in Hn.
  rewrite wrap64_small in H by lia.
  pose proof (thousands_step count H0) as T.
  destruct (ReadDiskChannel_from_requests endpoint rs (count + 1)
    (emit (Send (WorkerChannel endpoint) r)
       (if Z.rem (count + 1) 1000 =? 0
        then emit (Log DebugLevel "processed 1000 operations" []) w else w)))
    as (c2 & w2 & l & E & A & _).
  rewrite E in H. injection H as <- <-.
  apply IH in E as (-> & L); [|lia|lia].
  split; [cbn [length]; lia|].
  rewrite (since_app _ _ _ A) in L.
  destruct (Z.rem (count + 1) 1000 =? 0).
  - cbn [actions emit] in A. rewrite <- !app_assoc in A.
    rewrite (since_app _ _ _ A). cbn [app].
    change (?a :: ?b :: l) with ([a; b] ++ l). rewrite logged_app, length_app.
    cbn [logged omap length] in *. cbn. lia.
  - cbn [actions emit] in A. rewrite <- !app_assoc in A.
    rewrite (since_app _ _ _ A). cbn [app].
    change (?a :: l) with ([a] ++ l). rewrite logged_app, length_app.
    cbn. lia.
Qed.

Lemma Forall_eq_replicate {A} (x : A) (l : list A) :
  Forall (λ e, e = x) l → l = replicate (length l) x.
Proof. induction 1 as [|e l -> _ IH]; [done|]. cbn. by f_equal. Qed.

(** X1. [ReadDiskChannel] forwards the requests it receives to
    [WorkerChannel], each once and in the order received, and does nothing
    else than that and logging: no upstream call, no collector touched. *)
Theorem ReadDiskChannel_forwards_in_order
    (endpoint : Endpoint) (rs : list Request) (w : World) :
  ∃ count w',
    ReadDiskChannel endpoint (map IsRequest rs) w = Receiving count w'
    ∧ sends (since w w') = map (λ r, (WorkerChannel endpoint, r)) rs
    ∧ length (since w w')
      = (length rs + length (logged (since w w')))%nat
    ∧ requests w' = requests w ∧ failures w' = failures w
    ∧ endpointRequests w' = endpointRequests w
    ∧ endpointFailures w' = endpointFailures w
    ∧ endpointLatencyHistogram w' = endpointLatencyHistogram w.
Proof.
  destruct (ReadDiskChannel_from_requests endpoint rs 0 w)
    as (c & w' & l & E & A & S & L & N & F1 & F2 & F3 & F4 & F5 & _).
  exists c, w'. rewrite (since_app _ _ _ A). done.
Qed.

(** X2. While its counter does not overflow, [ReadDiskChannel] has counted
    every request received and has logged its one message once for every
    full thousand of them. *)
Theorem ReadDiskChannel_logs_every_thousand
    (endpoint : Endpoint) (rs : list Request) (w : World) :
  Z.of_nat (length rs) < 2 ^ 63 →
  ∃ w',
    ReadDiskChannel endpoint (map IsRequest rs) w
    = Receiving (Z.of_nat (length rs)) w'
    ∧ logged (since w w')
      = replicate (length rs / 1000)
                  (DebugLevel, "processed 1000 operations", []).
Proof.
  intros Hn.
  destruct (ReadDiskChannel_from_requests endpoint rs 0 w)
    as (c & w' & l & E & A & _ & L & _).
  destruct (ReadDiskChannel_from_count endpoint rs 0 w c w') as (-> & N);
    [lia|lia|done|].
  exists w'. split; [done|].
  rewrite (since_app _ _ _ A) in *.
  rewrite (Forall_eq_replicate _ _ L). f_equal.
  apply Nat2Z.inj. rewrite N, Nat2Z.inj_div.
  change (Z.of_nat 1000) with 1000. change (0 / 1000) with 0.
  rewrite Z.add_0_l. lia.
Qed.

Lemma ReadDiskChannel_logs_every_thousand_witness :
  Z.of_nat (length (replicate 2500 post_ingest)) < 2 ^ 63
  ∧ ∃ w',
      ReadDiskChannel group3 (map IsRequest (replicate 2500 post_ingest))
                      world0
      = Receiving (Z.of_nat (length (replicate 2500 post_ingest))) w'
      ∧ logged (since world0 w')
        = replicate (length (replicate 2500 post_ingest) / 1000)
                    (DebugLevel, "processed 1000 operations", []).
Proof.
  assert (Z.of_nat (length (replicate 2500 post_ingest)) < 2 ^ 63) as H
    by (vm_compute; reflexivity).
  split; [exact H|].
  exact (ReadDiskChannel_logs_every_thousand group3
           (replicate 2500 post_ingest) world0 H).
Defined.

(** X3. [ReadDiskChannel] panics at the first item that is not a
    [durable.Request] value: the requests before it have been forwarded,
    in order, and nothing after it is. *)
Theorem ReadDiskChannel_panics_at_first_other
    (endpoint : Endpoint) (rs : list Request) (rest : list iface)
    (w : World) :
  ∃ w',
    ReadDiskChannel endpoint (map IsRequest rs ++ IsOther :: rest) w
    = AssertionPanic w'
    ∧ sends (since w w') = map (λ r, (WorkerChannel endpoint, r)) rs.
Proof.
  unfold ReadDiskChannel. rewrite ReadDiskChannel_from_app.
  destruct (ReadDiskChannel_from_requests endpoint rs 0 w)
    as (c & w' & l & -> & A & S & _).
  exists w'. split; [done|]. by rewrite (since_app _ _ _ A).
Qed.

(** ** More on the worker *)

Lemma NewRequest_inl_eq url_Parse h r p :
  NewRequest url_Parse (Method r) (String.append h (URL r)) (Body r) = inl p →
  p = proxy_of h r.
Proof.
  unfold NewRequest, proxy_of. destruct (negb _); [done|].
  destruct (url_Parse _); [done|]. by intros [= <-].
Qed.

(** The actions of a run of the worker. *)
Lemma HTTPWorker_trace url_Parse endpoint h hs :
  Hosts endpoint = h :: hs → ∀ ds w,
  let sent := filter (λ d, builds url_Parse h d = true) ds in
  let lost := filter (λ d, failed d = true) sent in
  ∃ w' l, HTTPWorker url_Parse endpoint ds w = Done tt w'
    ∧ actions w' = actions w ++ l
    ∧ calls l = map (λ d, (Timeout endpoint, proxy_of h (dRecord d))) sent
    ∧ sends l = map (λ d, (Writer endpoint, dRecord d)) lost
    ∧ (length (closes l) + length lost = length sent)%nat
    ∧ length (discards l) = length (closes l)
    ∧ (length (logged l) + length sent = length ds + length lost)%nat
    ∧ replies l = [] ∧ bodies l = [] ∧ spawned l = [] ∧ pipelines l = []
    ∧ chans w' = chans w.
Proof.
  intros Hh ds. induction ds as [|d ds IH]; intros w sent lost.
  { exists w, []. rewrite app_nil_r. done. }
  rewrite (HTTPWorker_cons url_Parse endpoint).
  destruct (NewRequest url_Parse (Method (dRecord d))
              (String.append h (URL (dRecord d))) (Body (dRecord d)))
    as [p|err] eqn:E.
  - assert (builds url_Parse h d = true) as B by (unfold builds; by rewrite E).
    apply NewRequest_inl_eq in E as Ep.
    subst lost sent. rewrite filter_cons_True by exact B.
    destruct (dResult d) as [status body|e] eqn:R.
    + rewrite (iter_delivered _ _ _ _ Hh _ _ _ _ _ E R).
      match goal with |- context [HTTPWorker _ _ _ ?w1] =>
        destruct (IH w1)
          as (w' & l & -> & A & C & S & K & D & L & R1 & R2 & R3 & R4 & CH)
      end.
      assert (failed d = false) as F by (unfold failed; by rewrite R).
      rewrite filter_cons_False by (by rewrite F).
      exists w', ([ClientDo (Timeout endpoint) p; Discard body; CloseResponse]
                  ++ l).
      split; [done|]. rewrite A, CH. cbn [actions chans emit
        inc_endpointRequests observe_endpointLatency].
      rewrite <- !app_assoc. split; [done|].
      rewrite calls_app, sends_app, closes_app, discards_app, logged_app,
        replies_app, pipelines_app, spawned_app, !length_app.
      unfold bodies in *. rewrite omap_app, R2.
      rewrite C, S, R1, R3, R4, Ep. cbn. cbn in K, L.
      repeat split; try done; lia.
    + rewrite (iter_failed _ _ _ _ Hh _ _ _ _ E R).
      match goal with |- context [HTTPWorker _ _ _ ?w1] =>
        destruct (IH w1)
          as (w' & l & -> & A & C & S & K & D & L & R1 & R2 & R3 & R4 & CH)
      end.
      assert (failed d = true) as F by (unfold failed; by rewrite R).
      rewrite filter_cons_True by exact F.
      exists w', ([ClientDo (Timeout endpoint) p;
                   Log DebugLevel "error: %s" [LErr e];
                   Send (Writer endpoint) (dRecord d)] ++ l).
      split; [done|]. rewrite A, CH. cbn [actions chans emit
        inc_endpointRequests inc_endpointFailures observe_endpointLatency].
      rewrite <- !app_assoc. split; [done|].
      rewrite calls_app, sends_app, closes_app, discards_app, logged_app,
        replies_app, pipelines_app, spawned_app, !length_app.
      unfold bodies in *. rewrite omap_app, R2.
      rewrite C, S, R1, R3, R4, Ep. cbn. cbn in K, L.
      repeat split; try done; lia.
  - assert (builds url_Parse h d ≠ true) as B
      by (unfold builds; by rewrite E).
    subst lost sent. rewrite filter_cons_False by exact B.
    rewrite (iter_dropped _ _ _ _ Hh _ _ _ E).
    match goal with |- context [HTTPWorker _ _ _ ?w1] =>
      destruct (IH w1)
        as (w' & l & -> & A & C & S & K & D & L & R1 & R2 & R3 & R4 & CH)
    end.
    exists w', ([Log DebugLevel "error: %s" [LErr err]] ++ l).
    split; [done|]. rewrite A, CH. cbn [actions chans emit].
    rewrite <- !app_assoc. split; [done|].
    rewrite calls_app, sends_app, closes_app, discards_app, logged_app,
      replies_app, pipelines_app, spawned_app, !length_app.
    unfold bodies in *. rewrite omap_app, R2.
    rewrite C, S, R1, R3, R4. cbn. cbn in K, L.
    repeat split; try done; lia.
Qed.

(** X4. Every upstream call of a worker goes to the first host of its
    endpoint: with the endpoint's timeout, the record's method ([GET] for
    an empty one), the first host followed by the record's URL, and the
    record's body; the calls are made in the order of the records. *)
Theorem HTTPWorker_calls_first_host
    (url_Parse : string → error) (endpoint : Endpoint) (h : string)
    (hs : list string) (ds : list Delivery) (w : World) :
  Hosts endpoint = h :: hs →
  ∃ w', HTTPWorker url_Parse endpoint ds w = Done tt w'
    ∧ calls (since w w')
      = map (λ d, (Timeout endpoint, proxy_of h (dRecord d)))
            (filter (λ d, builds url_Parse h d = true) ds).
Proof.
  intros Hh.
  destruct (HTTPWorker_trace url_Parse endpoint h hs Hh ds w)
    as (w' & l & E & A & C & _).
  exists w'. by rewrite (since_app _ _ _ A).
Qed.

Lemma HTTPWorker_calls_first_host_witness :
  Hosts group3 = H1 :: [H2; H3]
  ∧ ∃ w', HTTPWorker url_Parse_lax group3
            [refused; bad_method; answered_503] world0 = Done tt w'
      ∧ calls (since world0 w')
        = map (λ d, (Timeout group3, proxy_of H1 (dRecord d)))
              (filter (λ d, builds url_Parse_lax H1 d = true)
                      [refused; bad_method; answered_503]).
Proof.
  split; [reflexivity|].
  exact (HTTPWorker_calls_first_host url_Parse_lax group3 H1 [H2; H3]
           [refused; bad_method; answered_503] world0 eq_refl).
Defined.

(** X5. Over any run, what a worker sends on channels is exactly this: the
    records whose call returned an error, each once, in their order, on
    the [Writer] of its own endpoint. Records that were answered or that
    [http.NewRequest] refused are sent nowhere. *)
Theorem HTTPWorker_requeues_exactly_the_failed
    (url_Parse : string → error) (endpoint : Endpoint) (h : string)
    (hs : list string) (ds : list Delivery) (w : World) :
  Hosts endpoint = h :: hs →
  ∃ w', HTTPWorker url_Parse endpoint ds w = Done tt w'
    ∧ sends (since w w')
      = map (λ d, (Writer endpoint, dRecord d))
            (filter (λ d, failed d = true)
                    (filter (λ d, builds url_Parse h d = true) ds)).
Proof.
  intros Hh.
  destruct (HTTPWorker_trace url_Parse endpoint h hs Hh ds w)
    as (w' & l & E & A & _ & S & _).
  exists w'. by rewrite (since_app _ _ _ A).
Qed.

Lemma HTTPWorker_requeues_exactly_the_failed_witness :
  Hosts group3 = H1 :: [H2; H3]
  ∧ ∃ w', HTTPWorker url_Parse_lax group3
            [refused; bad_method; answered_503] world0 = Done tt w'
      ∧ sends (since world0 w')
        = map (λ d, (Writer group3, dRecord d))
              (filter (λ d, failed d = true)
                 (filter (λ d, builds url_Parse_lax H1 d = true)
                         [refused; bad_method; answered_503])).
Proof.
  split; [reflexivity|].
  exact (HTTPWorker_requeues_exactly_the_failed url_Parse_lax group3 H1
           [H2; H3] [refused; bad_method; answered_503] world0 eq_refl).
Defined.

(** X6. The books of a worker balance over any run: every call ends
    either in one response read to its end and closed or in one send back,
    never in both, and every record received is either called or logged
    as refused, every send back adding one log line of its own. *)
Theorem HTTPWorker_accounts_for_every_record
    (url_Parse : string → error) (endpoint : Endpoint) (h : string)
    (hs : list string) (ds : list Delivery) (w : World) :
  Hosts endpoint = h :: hs →
  ∃ w', HTTPWorker url_Parse endpoint ds w = Done tt w'
    ∧ length (calls (since w w'))
      = (length (closes (since w w')) + length (sends (since w w')))%nat
    ∧ length (discards (since w w')) = length (closes (since w w'))
    ∧ (length (logged (since w w')) + length (calls (since w w')))%nat
      = (length ds + length (sends (since w w')))%nat.
Proof.
  intros Hh.
  destruct (HTTPWorker_trace url_Parse endpoint h hs Hh ds w)
    as (w' & l & E & A & C & S & K & D & L & _).
  exists w'. rewrite (since_app _ _ _ A), C, S, !length_map.
  repeat split; try done; lia.
Qed.

Lemma HTTPWorker_accounts_for_every_record_witness :
  Hosts group3 = H1 :: [H2; H3]
  ∧ ∃ w', HTTPWorker url_Parse_lax group3
            [refused; bad_method; answered_503] world0 = Done tt w'
      ∧ length (calls (since world0 w'))
        = (length (closes (since world0 w'))
           + length (sends (since world0 w')))%nat
      ∧ length (discards (since world0 w'))
        = length (closes (since world0 w'))
      ∧ (length (logged (since world0 w'))
         + length (calls (since world0 w')))%nat
        = (length [refused; bad_method; answered_503]
           + length (sends (since world0 w')))%nat.
Proof.
  split; [reflexivity|].
  exact (HTTPWorker_accounts_for_every_record url_Parse_lax group3 H1
           [H2; H3] [refused; bad_method; answered_503] world0 eq_refl).
Defined.

(** X7. A worker keeps to its own business: over any run it writes
    nothing to an ingress response, starts no goroutine, opens no queue,
    makes no channel, and leaves the two ingress counters as they are. *)
Theorem HTTPWorker_keeps_off_ingress
    (url_Parse : string → error) (endpoint : Endpoint) (h : string)
    (hs : list string) (ds : list Delivery) (w : World) :
  Hosts endpoint = h :: hs →
  ∃ w', HTTPWorker url_Parse endpoint ds w = Done tt w'
    ∧ replies (since w w') = [] ∧ bodies (since w w') = []
    ∧ spawned (since w w') = [] ∧ pipelines (since w w') = []
    ∧ chans w' = chans w
    ∧ requests w' = requests w ∧ failures w' = failures w.
Proof.
  intros Hh.
  destruct (HTTPWorker_trace url_Parse endpoint h hs Hh ds w)
    as (w' & l & E & A & _ & _ & _ & _ & _ & R1 & R2 & R3 & R4 & CH).
  destruct (HTTPWorker_run url_Parse endpoint h hs Hh ds w)
    as (w2 & E2 & _ & _ & _ & _ & _ & RQ & FL).
  rewrite E in E2. injection E2 as <-.
  exists w'. by rewrite (since_app _ _ _ A).
Qed.

Lemma HTTPWorker_keeps_off_ingress_witness :
  Hosts group3 = H1 :: [H2; H3]
  ∧ ∃ w', HTTPWorker url_Parse_lax group3
            [refused; bad_method; answered_503] world0 = Done tt w'
      ∧ replies (since world0 w') = [] ∧ bodies (since world0 w') = []
      ∧ spawned (since world0 w') = [] ∧ pipelines (since world0 w') = []
      ∧ chans w' = chans world0
      ∧ requests w' = requests world0 ∧ failures w' = failures world0.
Proof.
  split; [reflexivity|].
  exact (HTTPWorker_keeps_off_ingress url_Parse_lax group3 H1 [H2; H3]
           [refused; bad_method; answered_503] world0 eq_refl).
Defined.

(** X8. A worker of an endpoint without hosts stops the process at the
    first record it receives, with an integer division by zero, before it
    has counted, called or logged anything. *)
Theorem HTTPWorker_crashes_without_hosts
    (url_Parse : string → error) (endpoint : Endpoint) (d : Delivery)
    (ds : list Delivery) (w : World) :
  Hosts endpoint = [] →
  HTTPWorker url_Parse endpoint (d :: ds) w = Crash IntegerDivideByZero w.
Proof. unfold HTTPWorker, HTTPWorker_iter. by intros ->. Qed.

Lemma HTTPWorker_crashes_without_hosts_witness :
  Hosts (mkEndpoint "a" [] (Chan 0) (Chan 2) (Chan 1) (10 * Second)) = []
  ∧ HTTPWorker url_Parse_lax
      (mkEndpoint "a" [] (Chan 0) (Chan 2) (Chan 1) (10 * Second))
      [delivered] world0
    = Crash IntegerDivideByZero world0.
Proof.
  split; [reflexivity|].
  exact (HTTPWorker_crashes_without_hosts url_Parse_lax
           (mkEndpoint "a" [] (Chan 0) (Chan 2) (Chan 1) (10 * Second))
           delivered [] world0 eq_refl).
Defined.

(** ** More on the ingress handler *)

Lemma HandleRequest_read_world h m u b w :
  HandleRequest h (mkIngressRequest m u b None) w =
  Done tt (emit CloseBody (emit (WriteHeader StatusNoContent)
    (foldl (λ w e, emit (Send (Writer e) (mkRequest m u b)) w)
           (inc_requests w) (Endpoints h)))).
Proof.
  unfold HandleRequest, ReadAll. cbn [inBody inBodyErr inMethod inURL].
  unfold mbind, M_bind, requests_Inc, modify. rewrite forM__act.
  reflexivity.
Qed.

Lemma HandleRequest_read_error_world h m u b e w :
  HandleRequest h (mkIngressRequest m u b (Some e)) w =
  Done tt (emit CloseBody
    (emit (WriteBody (String.append "can't read body" newline))
    (emit (WriteHeader StatusBadRequest)
    (emit (Log DebugLevel "error reading body: %v" [LErr e])
    (inc_failures (inc_requests w)))))).
Proof. reflexivity. Qed.

(** X9. Whenever [HandleRequest] has returned, whatever the body did, it
    has counted the request once, written one response header, written a
    response body only after a read error (the text [can't read body] and a
    line feed), closed the request body as its last action, made no
    upstream call and left the collectors of the endpoints and the channels
    as they were. Whether it returns is not said here: a send on a [Writer]
    waits until the queue takes the record. *)
Theorem HandleRequest_answers_once
    (h : Handler) (req : IngressRequest) (w w' : World) :
  HandleRequest h req w = Done tt w' →
  requests w' = S (requests w)
  ∧ length (replies (since w w')) = 1%nat
  ∧ bodies (since w w')
    = match inBodyErr req with
      | Some _ => [String.append "can't read body" newline]
      | None => []
      end
  ∧ last (since w w') = Some CloseBody
  ∧ calls (since w w') = []
  ∧ endpointRequests w' = endpointRequests w
  ∧ endpointFailures w' = endpointFailures w
  ∧ endpointLatencyHistogram w' = endpointLatencyHistogram w
  ∧ chans w' = chans w.
Proof.
  destruct req as [m u b [e|]].
  - rewrite HandleRequest_read_error_world. intros [= <-].
    unfold since. cbn [actions emit inc_failures inc_requests requests
      endpointRequests endpointFailures endpointLatencyHistogram chans
      inBodyErr].
    rewrite <- !app_assoc. cbn [app]. rewrite drop_app_length. done.
  - rewrite HandleRequest_read_world. intros [= <-].
    cbn [requests endpointRequests endpointFailures endpointLatencyHistogram
         chans emit inBodyErr].
    rewrite requests_foldl_emit, chans_foldl_emit.
    rewrite (foldl_emit_keeps _ endpointRequests),
      (foldl_emit_keeps _ endpointFailures),
      (foldl_emit_keeps _ endpointLatencyHistogram) by done.
    assert (since w (emit CloseBody (emit (WriteHeader StatusNoContent)
              (foldl (λ w e, emit (Send (Writer e) (mkRequest m u b)) w)
                     (inc_requests w) (Endpoints h))))
            = map (λ e, Send (Writer e) (mkRequest m u b)) (Endpoints h)
              ++ [WriteHeader StatusNoContent; CloseBody]) as ->.
    { apply since_app. cbn [actions emit]. rewrite actions_foldl_emit.
      cbn [actions inc_requests]. by rewrite <- !app_assoc. }
    rewrite replies_fan_out, last_app. unfold bodies, calls.
    rewrite !omap_app. cbn.
    split; [done|]. split; [done|].
    split. { induction (Endpoints h); [done|]. by cbn. }
    split; [done|].
    split. { induction (Endpoints h); [done|]. by cbn. }
    done.
Qed.

Lemma HandleRequest_answers_once_witness :
  HandleRequest handler_1k (mkIngressRequest "POST" "/ingest" hello None)
                world0
  = Done tt answered_hello
  ∧ requests answered_hello = S (requests world0)
  ∧ length (replies (since world0 answered_hello)) = 1%nat
  ∧ bodies (since world0 answered_hello) = []
  ∧ last (since world0 answered_hello) = Some CloseBody
  ∧ calls (since world0 answered_hello) = []
  ∧ endpointRequests answered_hello = endpointRequests world0
  ∧ endpointFailures answered_hello = endpointFailures world0
  ∧ endpointLatencyHistogram answered_hello = endpointLatencyHistogram world0
  ∧ chans answered_hello = chans world0.
Proof.
  split; [reflexivity|].
  exact (HandleRequest_answers_once handler_1k
           (mkIngressRequest "POST" "/ingest" hello None) world0
           answered_hello eq_refl).
Defined.

(** ** More on start-up *)

Lemma bind_Done {A B} (m : M A) (f : A → M B) w a w' :
  m w = Done a w' → (m ≫= f) w = f a w'.
Proof. intros E. unfold mbind, M_bind. by rewrite E. Qed.

Lemma bind_Exit1 {A B} (m : M A) (f : A → M B) w fmt args w' :
  m w = Exit1 fmt args w' → (m ≫= f) w = Exit1 fmt args w'.
Proof. intros E. unfold mbind, M_bind. by rewrite E. Qed.

Lemma bind_Crash {A B} (m : M A) (f : A → M B) w p w' :
  m w = Crash p w' → (m ≫= f) w = Crash p w'.
Proof. intros E. unfold mbind, M_bind. by rewrite E. Qed.

Lemma mkdirs_app l1 l2 : mkdirs (l1 ++ l2) = mkdirs l1 ++ mkdirs l2.
Proof. apply omap_app. Qed.

Section Checks.
Variable parseHier : NetURL.URL → string → option NetURL.URL * error.

Lemma checkHost_verdict ec host w :
  checkHost parseHier ec host w =
  if accepts parseHier host then Done tt w
  else if refuses parseHier host
       then Exit1 "(%s) [%s] is not a valid endpoint url"
                  [LStr (cfgName ec); LStr host] w
       else Crash NilPointerDereference w.
Proof.
  unfold checkHost, accepts, refuses, isValidURL, mbind, M_bind.
  destruct (NetURL.ParseRequestURI parseHier host) as [[url|] [e|]] eqn:E;
    try done.
  - by apply ParseRequestURI_error_nil in E.
  - by destruct (String.eqb _ "http"), (String.eqb _ "https").
Qed.


Lemma checkHosts_stop ec ok host more w :
  Forall (λ x, accepts parseHier x = true) ok →
  accepts parseHier host = false →
  forM_ (checkHost parseHier ec) (ok ++ host :: more) w =
  if refuses parseHier host
  then Exit1 "(%s) [%s] is not a valid endpoint url"
             [LStr (cfgName ec); LStr host] w
  else Crash NilPointerDereference w.
Proof.
  intros Hok Hno. induction Hok as [|x ok Hx _ IH]; cbn [app forM_].
  - pose proof (checkHost_verdict ec host w) as V. rewrite Hno in V.
    destruct (refuses parseHier host).
    + by apply bind_Exit1.
    + by apply bind_Crash.
  - rewrite (bind_Done _ _ w tt w); [done|].
    by rewrite checkHost_verdict, Hx.
Qed.

(** The hosts of a list are all accepted, or one of them is the first
    that is not. *)
Lemma first_not_accepted hosts :
  Forall (λ x, accepts parseHier x = true) hosts
  ∨ ∃ ok host more,
      hosts = ok ++ host :: more
      ∧ Forall (λ x, accepts parseHier x = true) ok
      ∧ accepts parseHier host = false.
Proof.
  induction hosts as [|x hosts IH]; [by left|].
  destruct (accepts parseHier x) eqn:E.
  - destruct IH as [IH|(ok & host & more & -> & Hok & Hno)].
    + left. by constructor.
    + right. exists (x :: ok), host, more.
      split; [done|]. split; [by constructor|done].
  - right. by exists [], x, hosts.
Qed.

Variables (o : Options) (dataDir : string).

(** What a start of an endpoint that goes through has done, action by
    action. *)
Lemma startEndpoint_trace ec w e w' :
  startEndpoint parseHier o dataDir ec w = Done e w' →
  let n := length (chans w) in
  e = mkEndpoint (cfgName ec) (cfgHosts ec) (Chan n) (Chan (n + 2))
                 (Chan (n + 1)) (optTimeout o)
  ∧ 0 <= optConcurrency o
  ∧ chans w' = chans w ++ [0; optConcurrency o; 0]
  ∧ actions w' =
      actions w
      ++ [Log InfoLevel "registered (%s) with endpoints: [%s]"
            [LStr (cfgName ec); LStr (Join (cfgHosts ec) ",")];
          Log InfoLevel
           "config options: (http timeout: %s, maxMsgSize: %d, concurrency: %d)"
            [LDuration (optTimeout o); LInt (optMaxMsgSize o);
             LInt (optConcurrency o)];
          OpenDurable (Chan n) (Chan (n + 2))
            (mkDurableConfig (cfgName ec) dataDir (2 ^ 30) 0
                             (optMaxMsgSize o) 10000 (10 * Second))]
      ++ replicate (Z.to_nat (optConcurrency o)) (Spawn (GoHTTPWorker e))
      ++ [Spawn (GoReadDiskChannel e)]
  ∧ requests w' = requests w ∧ failures w' = failures w
  ∧ endpointRequests w' = endpointRequests w
  ∧ endpointFailures w' = endpointFailures w
  ∧ endpointLatencyHistogram w' = endpointLatencyHistogram w.
Proof.
  intros H n. unfold startEndpoint in H.
  apply bind_Done_inv in H as ([] & w1 & Hc & H).
  apply checkHosts_pure in Hc as ->.
  revert H. unfold durable_Channel. run_M. unfold make_chan. cbn.
  destruct (Z.ltb_spec (optConcurrency o) 0) as [?|Hc]; [done|]. cbn.
  rewrite forM__emit. intros [= <- <-].
  rewrite !length_app. cbn [length].
  replace (length (chans w) + 1 + 1)%nat with (n + 2)%nat by lia.
  replace (length (chans w) + 1)%nat with (n + 1)%nat by lia.
  split; [done|]. split; [done|].
  cbn [chans actions requests failures endpointRequests endpointFailures
       endpointLatencyHistogram emit].
  rewrite chans_foldl_emit, actions_foldl_emit, requests_foldl_emit,
    failures_foldl_emit.
  rewrite (foldl_emit_keeps _ endpointRequests),
    (foldl_emit_keeps _ endpointFailures),
    (foldl_emit_keeps _ endpointLatencyHistogram) by done.
  cbn [chans actions requests failures endpointRequests endpointFailures
       endpointLatencyHistogram emit new_chan].
  rewrite <- !app_assoc. cbn [app].
  rewrite map_const_replicate, length_seq.
  repeat split.
Qed.


Lemma startEndpoint_Done_accepted ec w e w' :
  startEndpoint parseHier o dataDir ec w = Done e w' →
  Forall (λ host, accepts parseHier host = true) (cfgHosts ec).
Proof.
  intros H. unfold startEndpoint in H.
  apply bind_Done_inv in H as ([] & w1 & Hc & _).
  destruct (first_not_accepted (cfgHosts ec))
    as [|(ok & host & more & E & Hok & Hno)]; [done|].
  rewrite E, (checkHosts_stop ec ok host more w Hok Hno) in Hc.
  by destruct (refuses parseHier host).
Qed.


End Checks.

Lemma observed_replicate_Spawn (k : nat) (g : goroutine) :
  pipelines (replicate k (Spawn g)) = []
  ∧ spawned (replicate k (Spawn g)) = replicate k g
  ∧ mkdirs (replicate k (Spawn g)) = [].
Proof.
  induction k as [|k (IH1 & IH2 & IH3)]; [done|].
  cbn [replicate]. unfold pipelines, spawned, mkdirs in *. simpl.
  split; [done|]. split; [by f_equal|done].
Qed.



Lemma mkdirs_started o dataDir e : mkdirs (started o dataDir e) = [].
Proof.
  unfold started. rewrite !mkdirs_app.
  by rewrite (proj2 (proj2 (observed_replicate_Spawn _ _))).
Qed.

Lemma endpoint_at_0 o n ec :
  endpoint_at o n 0 ec =
  mkEndpoint (cfgName ec) (cfgHosts ec) (Chan n) (Chan (n + 2)) (Chan (n + 1))
             (optTimeout o).
Proof. unfold endpoint_at. by rewrite Nat.mul_0_r, !Nat.add_0_r. Qed.

Section Endpoints.
Variable parseHier : NetURL.URL → string → option NetURL.URL * error.
Variables (o : Options) (dataDir : string).

Lemma startEndpoints_trace ecs : ∀ ep w ep' w',
  startEndpoints parseHier o dataDir ecs ep w = Done ep' w' →
  ep' = ep ++ imap (endpoint_at o (length (chans w))) ecs
  ∧ chans w' = chans w ++ flat_map (λ _, [0; optConcurrency o; 0]) ecs
  ∧ actions w' =
      actions w
      ++ flat_map (started o dataDir)
                  (imap (endpoint_at o (length (chans w))) ecs)
  ∧ requests w' = requests w ∧ failures w' = failures w
  ∧ endpointRequests w' = endpointRequests w
  ∧ endpointFailures w' = endpointFailures w
  ∧ endpointLatencyHistogram w' = endpointLatencyHistogram w.
Proof.
  induction ecs as [|ec ecs IH]; intros ep w ep' w' H.
  { injection H as <- <-. cbn. by rewrite !app_nil_r. }
  cbn [startEndpoints] in H.
  apply bind_Done_inv in H as (e & w1 & He & H).
  apply startEndpoint_trace in He
    as (-> & _ & C1 & A1 & F1 & F2 & F3 & F4 & F5).
  apply IH in H as (-> & C2 & A2 & G1 & G2 & G3 & G4 & G5).
  rewrite C2, A2, G1, G2, G3, G4, G5, C1, A1, F1, F2, F3, F4, F5.
  rewrite length_app. cbn [length imap flat_map].
  assert (imap (endpoint_at o (length (chans w) + 3)) ecs
          = imap (endpoint_at o (length (chans w)) ∘ S) ecs) as ->.
  { apply imap_ext. intros i x _. unfold endpoint_at, compose.
    by replace (length (chans w) + 3 + 3 * i)%nat
      with (length (chans w) + 3 * S i)%nat by lia. }
  rewrite !endpoint_at_0. unfold started.
  cbn [Name Hosts Writer DurableChannel WorkerChannel Timeout].
  rewrite <- !app_assoc. cbn [app]. done.
Qed.

Lemma startEndpoints_Done_accepted ecs : ∀ ep w ep' w',
  startEndpoints parseHier o dataDir ecs ep w = Done ep' w' →
  Forall (λ ec, Forall (λ host, accepts parseHier host = true) (cfgHosts ec))
         ecs.
Proof.
  induction ecs as [|ec ecs IH]; intros ep w ep' w' H; [constructor|].
  cbn [startEndpoints] in H.
  apply bind_Done_inv in H as (e & w1 & He & H).
  constructor.
  - by eapply startEndpoint_Done_accepted.
  - by eapply IH.
Qed.


End Endpoints.


(** X10. When the data directory is missing and cannot be made,
    [ListenAndServe] ends the process with the error of [os.MkdirAll];
    by then it has logged that it creates the directory and has tried to,
    and has done nothing else: no channel, no queue, no goroutine. *)
Theorem ListenAndServe_stops_without_data_dir
    (parseHier : NetURL.URL → string → option NetURL.URL * error)
    (config : Config) (addr dataDir : string) (disk : Disk) (e : string)
    (w : World) :
  dataDirMissing disk = true → mkdirErr disk = Some e →
  ∃ w', ListenAndServe parseHier config addr dataDir disk w
        = Exit1 "%v" [LErr e] w'
    ∧ since w w'
      = [Log InfoLevel "creating data directory: %s" [LStr dataDir];
         MkdirAll dataDir]
    ∧ chans w' = chans w.
Proof.
  intros Hm He. unfold ListenAndServe. rewrite Hm, He. run_M.
  eexists. split; [reflexivity|]. unfold since. cbn [actions emit chans].
  rewrite <- !app_assoc. cbn [app]. by rewrite drop_app_length.
Qed.

Lemma ListenAndServe_stops_without_data_dir_witness :
  dataDirMissing disk_denied = true
  ∧ mkdirErr disk_denied = Some "permission denied"
  ∧ ∃ w', ListenAndServe parseHier_lax config_1k ":8080" "data" disk_denied
            world0
          = Exit1 "%v" [LErr "permission denied"] w'
      ∧ since world0 w'
        = [Log InfoLevel "creating data directory: %s" [LStr "data"];
           MkdirAll "data"]
      ∧ chans w' = chans world0.
Proof.
  split; [reflexivity|]. split; [reflexivity|].
  exact (ListenAndServe_stops_without_data_dir parseHier_lax config_1k
           ":8080" "data" disk_denied "permission denied" world0 eq_refl
           eq_refl).
Defined.

(** What a start-up that goes through has done, action by action. *)
Lemma ListenAndServe_Done_trace parseHier config addr dataDir disk w h w' :
  ListenAndServe parseHier config addr dataDir disk w = Done h w' →
  Endpoints h = imap (endpoint_at (options config) (length (chans w)))
                     (Config_Endpoints config)
  ∧ chans w' = chans w
               ++ flat_map (λ _, [0; optConcurrency (options config); 0])
                           (Config_Endpoints config)
  ∧ actions w' =
      actions w
      ++ (if dataDirMissing disk
          then [Log InfoLevel "creating data directory: %s" [LStr dataDir];
                MkdirAll dataDir]
          else [])
      ++ MustRegister
         :: flat_map (started (options config) dataDir) (Endpoints h)
      ++ [Handle "/metrics"; Handle "/";
          Log PrintLevel "listening on %s" [LStr addr]; Listen addr]
  ∧ requests w' = requests w ∧ failures w' = failures w
  ∧ endpointRequests w' = endpointRequests w
  ∧ endpointFailures w' = endpointFailures w
  ∧ endpointLatencyHistogram w' = endpointLatencyHistogram w.
Proof.
  intros H. unfold ListenAndServe in H.
  apply bind_Done_inv in H as ([] & w1 & Hdir & H).
  apply bind_Done_inv in H as ([] & w2 & Hreg & H).
  apply bind_Done_inv in H as (ep & w3 & Hep & H).
  injection Hreg as <-.
  apply startEndpoints_trace in Hep
    as (-> & C & A & F1 & F2 & F3 & F4 & F5).
  revert H. run_M. intros [= <- <-].
  cbn [Endpoints actions chans requests failures endpointRequests
       endpointFailures endpointLatencyHistogram emit app] in *.
  rewrite C, A, F1, F2, F3, F4, F5.
  assert (chans w1 = chans w
          ∧ actions w1 =
              actions w
              ++ (if dataDirMissing disk
                  then [Log InfoLevel "creating data directory: %s"
                            [LStr dataDir]; MkdirAll dataDir]
                  else [])
          ∧ requests w1 = requests w ∧ failures w1 = failures w
          ∧ endpointRequests w1 = endpointRequests w
          ∧ endpointFailures w1 = endpointFailures w
          ∧ endpointLatencyHistogram w1 = endpointLatencyHistogram w)
    as (-> & -> & -> & -> & -> & -> & ->).
  { revert Hdir. destruct (dataDirMissing disk).
    - run_M. destruct (mkdirErr disk); [done|]. intros [= <-].
      cbn [actions chans emit]. by rewrite <- !app_assoc.
    - intros [= <-]. by rewrite app_nil_r. }
  cbn [actions emit]. rewrite <- !app_assoc. cbn [app]. done.
Qed.


(** ** Channels *)

Lemma endpoint_at_shift o n i ec :
  endpoint_at o n (S i) ec = endpoint_at o (n + 3) i ec.
Proof.
  unfold endpoint_at.
  by replace (n + 3 * S i)%nat with (n + 3 + 3 * i)%nat by lia.
Qed.

Lemma imap_endpoint_at_cons o n ec ecs :
  imap (endpoint_at o n) (ec :: ecs) =
  endpoint_at o n 0 ec :: imap (endpoint_at o (n + 3)) ecs.
Proof.
  cbn [imap]. f_equal. apply imap_ext. intros i x _.
  apply endpoint_at_shift.
Qed.

Lemma channels_of_endpoints o ecs : ∀ n,
  flat_map (λ e, [Writer e; WorkerChannel e; DurableChannel e])
           (imap (endpoint_at o n) ecs)
  = map Chan (seq n (3 * length ecs)).
Proof.
  induction ecs as [|ec ecs IH]; intros n; [done|].
  rewrite imap_endpoint_at_cons. cbn [flat_map app]. rewrite IH.
  rewrite endpoint_at_0. cbn [Writer WorkerChannel DurableChannel length].
  replace (3 * S (length ecs))%nat with (S (S (S (3 * length ecs)))) by lia.
  cbn [seq map].
  by replace (n + 1)%nat with (S n) by lia;
     replace (n + 2)%nat with (S (S n)) by lia;
     replace (n + 3)%nat with (S (S (S n))) by lia.
Qed.

Lemma capacities_of_endpoints o c ecs : ∀ (pre : list Z),
  Forall (λ e,
            (pre ++ flat_map (λ _ : EndpointConfig, [0; c; 0]) ecs)
              !! chan_id (Writer e) = Some 0
            ∧ (pre ++ flat_map (λ _ : EndpointConfig, [0; c; 0]) ecs)
                !! chan_id (WorkerChannel e) = Some c
            ∧ (length pre <= chan_id (Writer e))%nat
            ∧ (length pre <= chan_id (WorkerChannel e))%nat
            ∧ (length pre <= chan_id (DurableChannel e))%nat)
         (imap (endpoint_at o (length pre)) ecs).
Proof.
  induction ecs as [|ec ecs IH]; intros pre; [constructor|].
  rewrite imap_endpoint_at_cons. constructor.
  - rewrite endpoint_at_0.
    cbn [Writer WorkerChannel DurableChannel chan_id flat_map app].
    rewrite !lookup_app_r by lia.
    replace (length pre - length pre)%nat with 0%nat by lia.
    replace (length pre + 1 - length pre)%nat with 1%nat by lia.
    repeat split; try done; lia.
  - specialize (IH (pre ++ [0; c; 0])).
    rewrite length_app in IH. cbn [length] in IH.
    cbn [flat_map]. eapply Forall_impl; [exact IH|].
    intros e (W & K & L1 & L2 & L3). rewrite <- !app_assoc in W, K.
    cbn [app] in W, K. repeat split; try done; lia.
Qed.


(** X11. A start-up that goes through has done this, in this order: it
    has made the data directory if it was missing, registered the
    collectors, then for each endpoint of the configuration, in their
    order, logged two lines, opened the queue, started the workers and
    after them the reader, and only then installed the two handlers and
    begun to listen. The endpoints of the handler are the configured ones,
    in their order. *)
Theorem ListenAndServe_start_up_sequence
    (parseHier : NetURL.URL → string → option NetURL.URL * error)
    (config : Config) (addr dataDir : string) (disk : Disk) (w : World)
    (h : Handler) (w' : World) :
  ListenAndServe parseHier config addr dataDir disk w = Done h w' →
  Endpoints h = imap (endpoint_at (options config) (length (chans w)))
                     (Config_Endpoints config)
  ∧ since w w' =
      (if dataDirMissing disk
       then [Log InfoLevel "creating data directory: %s" [LStr dataDir];
             MkdirAll dataDir]
       else [])
      ++ MustRegister
         :: flat_map (started (options config) dataDir) (Endpoints h)
      ++ [Handle "/metrics"; Handle "/";
          Log PrintLevel "listening on %s" [LStr addr]; Listen addr].
Proof.
  intros H.
  apply ListenAndServe_Done_trace in H as (E & _ & A & _).
  split; [done|]. by apply since_app.
Qed.

Lemma ListenAndServe_start_up_sequence_witness :
  ListenAndServe parseHier_lax config_1k ":8080" "data" disk_ready world0
  = Done handler_1k serving_1k
  ∧ Endpoints handler_1k
    = imap (endpoint_at (options config_1k) (length (chans world0)))
           (Config_Endpoints config_1k)
  ∧ since world0 serving_1k =
      (if dataDirMissing disk_ready
       then [Log InfoLevel "creating data directory: %s" [LStr "data"];
             MkdirAll "data"]
       else [])
      ++ MustRegister
         :: flat_map (started (options config_1k) "data")
                     (Endpoints handler_1k)
      ++ [Handle "/metrics"; Handle "/";
          Log PrintLevel "listening on %s" [LStr ":8080"]; Listen ":8080"].
Proof.
  assert (ListenAndServe parseHier_lax config_1k ":8080" "data" disk_ready
            world0 = Done handler_1k serving_1k) as H
    by (vm_compute; reflexivity).
  split; [exact H|].
  exact (ListenAndServe_start_up_sequence parseHier_lax config_1k ":8080" "data"
           disk_ready world0 handler_1k serving_1k H).
Defined.

Lemma made_channels_of_endpoints (es : list Endpoint) :
  flat_map (λ e, [Writer e; WorkerChannel e]) es
  `sublist_of` flat_map (λ e, [Writer e; WorkerChannel e; DurableChannel e]) es.
Proof.
  induction es as [|e es IH]; [constructor|].
  cbn [flat_map app]. do 2 apply sublist_skip. by apply sublist_cons.
Qed.

(** X12. After a start-up that goes through, the channels [ListenAndServe]
    has made itself are each endpoint's own: the [Writer] and the
    [WorkerChannel] of all the endpoints are different channels, none of
    them existed before, the [Writer] is unbuffered and the [WorkerChannel]
    holds as many records as the concurrency in use. *)
Theorem ListenAndServe_gives_each_endpoint_its_channels
    (parseHier : NetURL.URL → string → option NetURL.URL * error)
    (config : Config) (addr dataDir : string) (disk : Disk) (w : World)
    (h : Handler) (w' : World) :
  ListenAndServe parseHier config addr dataDir disk w = Done h w' →
  NoDup (flat_map (λ e, [Writer e; WorkerChannel e]) (Endpoints h))
  ∧ Forall (λ e,
              capacity w' (Writer e) = Some 0
              ∧ capacity w' (WorkerChannel e)
                = Some (optConcurrency (options config))
              ∧ capacity w (Writer e) = None
              ∧ capacity w (WorkerChannel e) = None)
           (Endpoints h).
Proof.
  intros H.
  apply ListenAndServe_Done_trace in H as (-> & C & _).
  split.
  - eapply sublist_NoDup; [|apply made_channels_of_endpoints].
    rewrite channels_of_endpoints. apply NoDup_fmap_2; [|apply NoDup_seq].
    by intros i j [= ->].
  - eapply Forall_impl;
      [apply (capacities_of_endpoints (options config)
                (optConcurrency (options config)) (Config_Endpoints config)
                (chans w))|].
    intros e (W & K & L1 & L2 & _). unfold capacity. rewrite C.
    destruct (Writer e) as [i], (WorkerChannel e) as [j]. cbn [chan_id] in *.
    split; [done|]. split; [done|].
    by rewrite !lookup_ge_None_2 by lia.
Qed.

Lemma ListenAndServe_gives_each_endpoint_its_channels_witness :
  ListenAndServe parseHier_lax config_1k ":8080" "data" disk_ready world0
  = Done handler_1k serving_1k
  ∧ NoDup (flat_map (λ e, [Writer e; WorkerChannel e])
                    (Endpoints handler_1k))
  ∧ Forall (λ e,
              capacity serving_1k (Writer e) = Some 0
              ∧ capacity serving_1k (WorkerChannel e)
                = Some (optConcurrency (options config_1k))
              ∧ capacity world0 (Writer e) = None
              ∧ capacity world0 (WorkerChannel e) = None)
           (Endpoints handler_1k).
Proof.
  assert (ListenAndServe parseHier_lax config_1k ":8080" "data" disk_ready
            world0 = Done handler_1k serving_1k) as H
    by (vm_compute; reflexivity).
  split; [exact H|].
  exact (ListenAndServe_gives_each_endpoint_its_channels parseHier_lax
           config_1k ":8080" "data" disk_ready world0 handler_1k serving_1k H).
Defined.


(** ** Which configurations start, and where the others stop *)




(** X13. [ListenAndServe] comes to listen only when the data directory
    existed or could be made and every host of every endpoint of the
    configuration was accepted by [isValidURL], that is, parses with the
    scheme [http] or [https]; with endpoints to start, the concurrency in
    use is not negative. The handler then has the configured endpoints,
    with their names and hosts, in their order, and listening is the last
    thing done. *)
Theorem ListenAndServe_serves_only_accepted_hosts
    (parseHier : NetURL.URL → string → option NetURL.URL * error)
    (config : Config) (addr dataDir : string) (disk : Disk) (w : World)
    (h : Handler) (w' : World) :
  ListenAndServe parseHier config addr dataDir disk w = Done h w' →
  (dataDirMissing disk = true → mkdirErr disk = None)
  ∧ Forall (λ ec, Forall (λ host, accepts parseHier host = true)
                         (cfgHosts ec))
           (Config_Endpoints config)
  ∧ (Config_Endpoints config ≠ [] → 0 <= optConcurrency (options config))
  ∧ map Name (Endpoints h) = map cfgName (Config_Endpoints config)
  ∧ map Hosts (Endpoints h) = map cfgHosts (Config_Endpoints config)
  ∧ last (since w w') = Some (Listen addr).
Proof.
  intros H. pose proof H as H0. unfold ListenAndServe in H0.
  apply bind_Done_inv in H0 as ([] & w1 & Hdir & H0).
  apply bind_Done_inv in H0 as ([] & w2 & _ & H0).
  apply bind_Done_inv in H0 as (ep & w3 & Hep & _).
  split.
  { intros Hm. rewrite Hm in Hdir. revert Hdir. run_M.
    by destruct (mkdirErr disk). }
  split; [by eapply startEndpoints_Done_accepted|].
  split.
  { intros Hne. destruct (Config_Endpoints config) as [|ec ecs]; [done|].
    cbn [startEndpoints] in Hep.
    apply bind_Done_inv in Hep as (e & w4 & He & _).
    by apply startEndpoint_trace in He as (_ & Hc & _). }
  apply ListenAndServe_Done in H as (l & A & N & Hh & _).
  rewrite (since_app _ _ _ A), last_snoc. done.
Qed.

Lemma ListenAndServe_serves_only_accepted_hosts_witness :
  ListenAndServe parseHier_lax config_1k ":8080" "data" disk_ready world0
  = Done handler_1k serving_1k
  ∧ (dataDirMissing disk_ready = true → mkdirErr disk_ready = None)
  ∧ Forall (λ ec, Forall (λ host, accepts parseHier_lax host = true)
                         (cfgHosts ec))
           (Config_Endpoints config_1k)
  ∧ (Config_Endpoints config_1k ≠ []
     → 0 <= optConcurrency (options config_1k))
  ∧ map Name (Endpoints handler_1k) = map cfgName (Config_Endpoints config_1k)
  ∧ map Hosts (Endpoints handler_1k)
    = map cfgHosts (Config_Endpoints config_1k)
  ∧ last (since world0 serving_1k) = Some (Listen ":8080").
Proof.
  assert (ListenAndServe parseHier_lax config_1k ":8080" "data" disk_ready
            world0 = Done handler_1k serving_1k) as H
    by (vm_compute; reflexivity).
  split; [exact H|].
  exact (ListenAndServe_serves_only_accepted_hosts parseHier_lax config_1k
           ":8080" "data" disk_ready world0 handler_1k serving_1k H).
Defined.



(** ** Which hosts the check accepts, and on which it panics *)

Lemma append_cons c (a b : string) :
  String.append (String c a) b = String c (String.append a b).
Proof. reflexivity. Qed.

Lemma substring_prefix (a b : string) :
  String.substring 0 (String.length a) (String.append a b) = a.
Proof.
  induction a as [|c a IH]; [by destruct b|].
  rewrite append_cons. cbn [String.length String.substring]. by rewrite IH.
Qed.

Lemma substring_shift c (a : string) n :
  String.substring 0 (S n) (String c a) = String c (String.substring 0 n a).
Proof. reflexivity. Qed.

Lemma isLetter_not_colon c :
  NetURL.isLetter c = true →
  (NetURL.byteval c <? 32)%N || (NetURL.byteval c =? 127)%N = false
  ∧ Ascii.eqb c "*" = false.
Proof.
  unfold NetURL.isLetter. intros H.
  assert (65 <= NetURL.byteval c <= 122)%N as Hr.
  { apply orb_true_iff in H as [H|H];
      apply andb_true_iff in H as [H1 H2];
      apply N.leb_le in H1; apply N.leb_le in H2; lia. }
  split.
  - apply orb_false_iff. split; [apply N.ltb_ge|apply N.eqb_neq]; lia.
  - apply Ascii.eqb_neq. intros ->. destruct Hr as [Hr _].
    apply Hr. reflexivity.
Qed.

Lemma getScheme_from_letters rawURL rest sch : ∀ i,
  allLetters sch = true → (0 < i + String.length sch)%nat →
  NetURL.getScheme_from rawURL i (String.append sch (String ":" rest))
  = (String.substring 0 (i + String.length sch) rawURL, rest, None).
Proof.
  induction sch as [|c sch IH]; intros i Hl Hi.
  - change (String.append "" (String ":" rest)) with (String ":" rest).
    cbn in *. destruct i; [lia|]. by rewrite Nat.add_0_r.
  - cbn [allLetters] in Hl. apply andb_true_iff in Hl as [Hc Hl].
    rewrite append_cons. cbn [NetURL.getScheme_from]. rewrite Hc.
    rewrite IH by (done || lia). cbn [String.length].
    by rewrite Nat.add_succ_r.
Qed.

Lemma getScheme_letters sch rest :
  allLetters sch = true → sch ≠ "" →
  NetURL.getScheme (String.append sch (String ":" rest)) = (sch, rest, None).
Proof.
  intros Hl Hn. unfold NetURL.getScheme.
  rewrite getScheme_from_letters; [|done|destruct sch; [done|cbn; lia]].
  by rewrite Nat.add_0_l, substring_prefix.
Qed.

Lemma no_CTL_after_letters sch tl :
  allLetters sch = true →
  NetURL.stringContainsCTLByte (String.append sch tl)
  = NetURL.stringContainsCTLByte tl.
Proof.
  induction sch as [|c sch IH]; intros Hl; [done|].
  cbn [allLetters] in Hl. apply andb_true_iff in Hl as [Hc Hl].
  rewrite append_cons. cbn [NetURL.stringContainsCTLByte].
  rewrite (proj1 (isLetter_not_colon c Hc)). by apply IH.
Qed.

(** The split of the query leaves a text that begins with no slash as
    one. *)
Lemma query_split_keeps_no_slash rest :
  NetURL.HasPrefixSlash rest = false →
  NetURL.HasPrefixSlash
    (if NetURL.HasSuffixByte "?" rest
        && Nat.eqb (NetURL.CountByte "?" rest) 1
     then (String.substring 0 (String.length rest - 1)%nat rest, true, "")
     else let '(r, q) := NetURL.CutByte "?" rest in (r, false, q)).1.1
  = false.
Proof.
  intros H. destruct rest as [|c rest]; [done|].
  cbn [NetURL.HasPrefixSlash] in H.
  destruct (_ && _).
  - cbn [fst String.length]. rewrite Nat.sub_1_r. cbn [Nat.pred].
    destruct (String.length rest); cbn; [done|]. by rewrite H.
  - cbn [NetURL.CutByte]. destruct (Ascii.eqb c "?"); [done|].
    destruct (NetURL.CutByte "?" rest). cbn. by rewrite H.
Qed.

Lemma parse_opaque parseHier sch rest :
  allLetters sch = true → sch ≠ "" →
  NetURL.HasPrefixSlash rest = false →
  NetURL.stringContainsCTLByte rest = false →
  ∃ url, NetURL.ParseRequestURI parseHier
           (String.append sch (String ":" rest)) = (Some url, None)
    ∧ NetURL.Scheme url = NetURL.ToLower sch.
Proof.
  intros Hl Hn Hs Hc.
  unfold NetURL.ParseRequestURI, NetURL.parse_viaRequest.
  rewrite no_CTL_after_letters by done.
  cbn [NetURL.stringContainsCTLByte]. rewrite Hc.
  change ((NetURL.byteval ":" <? 32)%N || (NetURL.byteval ":" =? 127)%N
          || false) with false.
  destruct sch as [|c sch]; [done|].
  cbn [allLetters] in Hl. apply andb_true_iff in Hl as [Hl1 Hl2].
  assert (String.eqb (String.append (String c sch) (String ":" rest)) ""
          = false) as -> by done.
  assert (String.eqb (String.append (String c sch) (String ":" rest)) "*"
          = false) as ->.
  { rewrite append_cons. cbn [String.eqb].
    by rewrite (proj2 (isLetter_not_colon c Hl1)). }
  rewrite getScheme_letters; [|by cbn; rewrite Hl1, Hl2|done].
  pose proof (query_split_keeps_no_slash rest Hs) as Q.
  destruct (if NetURL.HasSuffixByte "?" rest
               && Nat.eqb (NetURL.CountByte "?" rest) 1
            then (String.substring 0 (String.length rest - 1)%nat rest,
                  true, "")
            else let '(r, q) := NetURL.CutByte "?" rest in (r, false, q))
    as [[r f] q].
  cbn [fst] in Q. rewrite Q. cbn [negb NetURL.ToLower String.eqb].
  eexists. split; [reflexivity|done].
Qed.

(** X15. [isValidURL] asks for no host: it accepts every string made of
    [http] or [https], in small or capital letters, a colon, and any text
    that holds no control byte and does not begin with a slash, the empty
    text among them. *)
Theorem isValidURL_accepts_without_host
    (parseHier : NetURL.URL → string → option NetURL.URL * error)
    (sch rest : string) (w : World) :
  allLetters sch = true →
  NetURL.ToLower sch = "http" ∨ NetURL.ToLower sch = "https" →
  NetURL.HasPrefixSlash rest = false →
  NetURL.stringContainsCTLByte rest = false →
  isValidURL parseHier (String.append sch (String ":" rest)) w = Done true w
  ∧ accepts parseHier (String.append sch (String ":" rest)) = true.
Proof.
  intros Hl Hsch Hs Hc.
  assert (sch ≠ "") as Hn by (intros ->; by destruct Hsch).
  destruct (parse_opaque parseHier sch rest Hl Hn Hs Hc) as (url & E & S).
  unfold accepts. rewrite (isValidURL_parsed _ _ _ _ E), E, S.
  by destruct Hsch as [-> | ->].
Qed.

Lemma isValidURL_accepts_without_host_witness :
  allLetters "HTTPS" = true
  ∧ (NetURL.ToLower "HTTPS" = "http" ∨ NetURL.ToLower "HTTPS" = "https")
  ∧ NetURL.HasPrefixSlash "" = false
  ∧ NetURL.stringContainsCTLByte "" = false
  ∧ isValidURL parseHier_lax (String.append "HTTPS" (String ":" "")) world0
    = Done true world0
  ∧ accepts parseHier_lax (String.append "HTTPS" (String ":" "")) = true.
Proof.
  split; [reflexivity|]. split; [right; reflexivity|].
  split; [reflexivity|]. split; [reflexivity|].
  exact (isValidURL_accepts_without_host parseHier_lax "HTTPS" "" world0
           eq_refl (or_intror eq_refl) eq_refl eq_refl).
Defined.

(** A string without scheme that begins with no slash does not parse. *)
Lemma parse_without_scheme parseHier s :
  (NetURL.getScheme s).1.1 = "" →
  NetURL.HasPrefixSlash s = false → s ≠ "*" →
  (NetURL.getScheme s).1.2 = s ∨ (NetURL.getScheme s).2 ≠ None →
  ∃ e, NetURL.ParseRequestURI parseHier s = (None, Some e).
Proof.
  intros Hsch Hs Hstar Hrest.
  unfold NetURL.ParseRequestURI, NetURL.parse_viaRequest.
  destruct (NetURL.stringContainsCTLByte s); [by eexists|].
  destruct (String.eqb s ""); [by eexists|].
  apply String.eqb_neq in Hstar. rewrite Hstar.
  destruct (NetURL.getScheme s) as [[sch rest] [err|]]; [by eexists|].
  cbn [fst snd] in *. destruct Hrest as [-> | ?]; [|done]. subst sch.
  pose proof (query_split_keeps_no_slash s Hs) as Q.
  destruct (if NetURL.HasSuffixByte "?" s
               && Nat.eqb (NetURL.CountByte "?" s) 1
            then (String.substring 0 (String.length s - 1)%nat s, true, "")
            else let '(r, q) := NetURL.CutByte "?" s in (r, false, q))
    as [[r f] q].
  cbn [fst] in Q. rewrite Q. cbn. by eexists.
Qed.

(** X16. A host whose first byte is neither a letter nor a slash, such as
    an address or a port written without scheme, is never reported as
    invalid: [isValidURL] panics on it. The lone asterisk is the one
    exception. *)
Theorem isValidURL_panics_on_bare_address
    (parseHier : NetURL.URL → string → option NetURL.URL * error)
    (c : ascii) (s : string) (w : World) :
  NetURL.isLetter c = false → c ≠ "/"%char → String c s ≠ "*" →
  isValidURL parseHier (String c s) w = Crash NilPointerDereference w
  ∧ accepts parseHier (String c s) = false
  ∧ refuses parseHier (String c s) = false.
Proof.
  intros Hl Hslash Hstar.
  destruct (parse_without_scheme parseHier (String c s)) as (e & E);
    try done.
  - unfold NetURL.getScheme. cbn [NetURL.getScheme_from]. rewrite Hl.
    destruct (NetURL.isSchemeExtra c); [done|].
    by destruct (NetURL.byteval c =? 58)%N.
  - cbn. by apply Ascii.eqb_neq.
  - unfold NetURL.getScheme. cbn [NetURL.getScheme_from]. rewrite Hl.
    destruct (NetURL.isSchemeExtra c); [by left|].
    destruct (NetURL.byteval c =? 58)%N; [by right|by left].
  - unfold accepts, refuses. rewrite (isValidURL_parse_error _ _ _ _ _ E), E.
    done.
Qed.

Lemma isValidURL_panics_on_bare_address_witness :
  NetURL.isLetter "1" = false ∧ "1"%char ≠ "/"%char
  ∧ String "1" "0.0.0.1:8080" ≠ "*"
  ∧ isValidURL parseHier_lax (String "1" "0.0.0.1:8080") world0
    = Crash NilPointerDereference world0
  ∧ accepts parseHier_lax (String "1" "0.0.0.1:8080") = false
  ∧ refuses parseHier_lax (String "1" "0.0.0.1:8080") = false.
Proof.
  split; [reflexivity|]. split; [discriminate|]. split; [discriminate|].
  exact (isValidURL_panics_on_bare_address parseHier_lax "1" "0.0.0.1:8080"
           world0 eq_refl
           (λ H, eq_ind "1"%char
                   (λ a, if Ascii.eqb a "1" then True else False) I _ H)
           (λ H, eq_ind (String "1" "0.0.0.1:8080")
                   (λ a, if String.eqb a "*" then False else True) I _ H)).
Defined.

Lemma getScheme_from_without_colon rawURL s : ∀ i,
  NetURL.CountByte ":" s = 0%nat →
  NetURL.getScheme_from rawURL i s = ("", rawURL, None).
Proof.
  induction s as [|c s IH]; intros i H; [done|].
  cbn [NetURL.CountByte] in H. cbn [NetURL.getScheme_from].
  destruct (Ascii.eqb_spec c ":") as [->|Hc]; [done|]. cbn in H.
  destruct (NetURL.isLetter c); [by apply IH|].
  destruct (NetURL.isSchemeExtra c); [destruct i; [done|by apply IH]|].
  destruct (N.eqb_spec (NetURL.byteval c) 58) as [E|_]; [|done].
  exfalso. apply Hc. unfold NetURL.byteval in E.
  rewrite <- (ascii_N_embedding c), E. reflexivity.
Qed.

(** X17. A host without any colon that does not begin with a slash, a
    plain host name for one, is never reported as invalid either:
    [isValidURL] panics on it, unless it is the lone asterisk. *)
Theorem isValidURL_panics_on_plain_name
    (parseHier : NetURL.URL → string → option NetURL.URL * error)
    (s : string) (w : World) :
  NetURL.CountByte ":" s = 0%nat →
  NetURL.HasPrefixSlash s = false → s ≠ "*" →
  isValidURL parseHier s w = Crash NilPointerDereference w
  ∧ accepts parseHier s = false
  ∧ refuses parseHier s = false.
Proof.
  intros Hc Hs Hstar.
  destruct (parse_without_scheme parseHier s) as (e & E); try done.
  - unfold NetURL.getScheme. by rewrite getScheme_from_without_colon.
  - left. unfold NetURL.getScheme. by rewrite getScheme_from_without_colon.
  - unfold accepts, refuses. rewrite (isValidURL_parse_error _ _ _ _ _ E), E.
    done.
Qed.

Lemma isValidURL_panics_on_plain_name_witness :
  NetURL.CountByte ":" "upstream.example" = 0%nat
  ∧ NetURL.HasPrefixSlash "upstream.example" = false
  ∧ "upstream.example" ≠ "*"
  ∧ isValidURL parseHier_lax "upstream.example" world0
    = Crash NilPointerDereference world0
  ∧ accepts parseHier_lax "upstream.example" = false
  ∧ refuses parseHier_lax "upstream.example" = false.
Proof.
  split; [reflexivity|]. split; [reflexivity|]. split; [discriminate|].
  exact (isValidURL_panics_on_plain_name parseHier_lax "upstream.example"
           world0 eq_refl eq_refl
           (λ H, eq_ind "upstream.example"
                   (λ a, if String.eqb a "*" then False else True) I _ H)).
Defined.

(** ** Workers per endpoint *)

Lemma startEndpoints_concurrency parseHier o dataDir ecs ep w ep' w' :
  startEndpoints parseHier o dataDir ecs ep w = Done ep' w' →
  ecs ≠ [] → 0 <= optConcurrency o.
Proof.
  intros H Hne. destruct ecs as [|ec ecs]; [done|].
  cbn [startEndpoints] in H.
  apply bind_Done_inv in H as (e & w1 & He & _).
  by apply startEndpoint_trace in He as (_ & Hc & _).
Qed.

(** X18. No endpoint is started without workers: when a start-up with at
    least one endpoint goes through, the concurrency in use is at least
    one, and every endpoint has that many workers, started before its one
    reader. *)
Theorem ListenAndServe_starts_workers_for_every_endpoint
    (parseHier : NetURL.URL → string → option NetURL.URL * error)
    (config : Config) (addr dataDir : string) (disk : Disk) (w : World)
    (h : Handler) (w' : World) :
  ListenAndServe parseHier config addr dataDir disk w = Done h w' →
  Config_Endpoints config ≠ [] →
  1 <= optConcurrency (options config)
  ∧ spawned (since w w')
    = flat_map (λ e, replicate (Z.to_nat (optConcurrency (options config)))
                               (GoHTTPWorker e)
                     ++ [GoReadDiskChannel e])
               (Endpoints h).
Proof.
  intros H Hne. split.
  - unfold ListenAndServe in H.
    apply bind_Done_inv in H as ([] & w1 & _ & H).
    apply bind_Done_inv in H as ([] & w2 & _ & H).
    apply bind_Done_inv in H as (ep & w3 & Hep & _).
    apply startEndpoints_concurrency in Hep; [|done].
    rewrite options_eq in *. cbn [optConcurrency] in *.
    destruct (Z.eqb_spec (HTTP_Concurrency config) 0); lia.
  - apply ListenAndServe_Done in H as (l & A & _ & _ & _ & _ & _ & S).
    rewrite (since_app _ _ _ A), spawned_app, S. cbn. by rewrite app_nil_r.
Qed.

Lemma ListenAndServe_starts_workers_for_every_endpoint_witness :
  ListenAndServe parseHier_lax config_1k ":8080" "data" disk_ready world0
  = Done handler_1k serving_1k
  ∧ Config_Endpoints config_1k ≠ []
  ∧ 1 <= optConcurrency (options config_1k)
  ∧ spawned (since world0 serving_1k)
    = flat_map (λ e, replicate (Z.to_nat (optConcurrency (options config_1k)))
                               (GoHTTPWorker e)
                     ++ [GoReadDiskChannel e])
               (Endpoints handler_1k).
Proof.
  assert (ListenAndServe parseHier_lax config_1k ":8080" "data" disk_ready
            world0 = Done handler_1k serving_1k) as H
    by (vm_compute; reflexivity).
  assert (Config_Endpoints config_1k ≠ []) as Hne by discriminate.
  split; [exact H|]. split; [exact Hne|].
  exact (ListenAndServe_starts_workers_for_every_endpoint parseHier_lax
           config_1k ":8080" "data" disk_ready world0 handler_1k serving_1k
           H Hne).
Defined.
